(** * Regulatory Q&A pipeline: router, retriever, verifier and controller

    A shallow embedding of the agent pipeline of [backend/]:
    - [agents/router.py]: [detect_regulations], [router_agent];
    - [agents/retriever.py]: [retriever_agent];
    - [agents/synthesizer.py]: [synthesizer_agent];
    - [agents/compliance_checker.py]: [parse_verification_response],
      [compliance_checker_agent];
    - [graph.py]: [should_retry], [build_graph], [format_sources],
      [ask_question].

    Conventions of the embedding.
    - Python [str] is [string]; the model is exact on ASCII text, characters
      above 127 are carried through unchanged by [lower], [upper], [strip].
    - Values decoded from JSON are [json]; numbers are the rationals their
      literals denote, objects are finite maps from keys to values.
    - The text-generation service and the vector index are external: they
      are section variables that thread an abstract [World].
    - A Python exception is a [Raise] outcome.  [json.loads] is external
      too: it decodes, raises [json.JSONDecodeError], or raises one of the
      errors that are not decode errors ([ValueError] on an integer literal
      over the interpreter's digit limit, [RecursionError] on nesting
      deeper than its stack). *)

From Stdlib Require Import ZArith QArith String Ascii List Lia Bool.
From stdpp Require Import gmap strings list.

Set Warnings "-register-all".
Local Open Scope string_scope.
Local Open Scope list_scope.

(** ** Python string built-ins *)

Module PyStr.

Definition newline : string := String "010"%char EmptyString.
Definition dquote : string := String "034"%char EmptyString.

(** [c.isspace()] on the ASCII range: TAB..CR, FS..US and the space. *)
Definition isspace (c : ascii) : bool :=
  let n := N_of_ascii c in
  ((9 <=? n) && (n <=? 13) || (28 <=? n) && (n <=? 32))%N.

Definition is_upper (c : ascii) : bool :=
  let n := N_of_ascii c in ((65 <=? n) && (n <=? 90))%N.

Definition is_lower (c : ascii) : bool :=
  let n := N_of_ascii c in ((97 <=? n) && (n <=? 122))%N.

Definition lower_char (c : ascii) : ascii :=
  if is_upper c then ascii_of_N (N_of_ascii c + 32) else c.

Definition upper_char (c : ascii) : ascii :=
  if is_lower c then ascii_of_N (N_of_ascii c - 32) else c.

Fixpoint map_chars (f : ascii -> ascii) (s : string) : string :=
  match s with
  | EmptyString => EmptyString
  | String c rest => String (f c) (map_chars f rest)
  end.

(** [s.lower()] and [s.upper()] on ASCII text.  A character above 127 is
    left as it is, where Python may map it to an ASCII letter (the long s
    U+017F uppercases to S, the Kelvin sign U+212A lowercases to k):
    statements that compare the two forms of a query are made for ASCII
    queries. *)
Definition lower (s : string) : string := map_chars lower_char s.
Definition upper (s : string) : string := map_chars upper_char s.

(** [s.lstrip()], [s.rstrip()] and [s.strip()]. *)
Fixpoint lstrip (s : string) : string :=
  match s with
  | EmptyString => EmptyString
  | String c rest => if isspace c then lstrip rest else s
  end.

Fixpoint rstrip (s : string) : string :=
  match s with
  | EmptyString => EmptyString
  | String c rest =>
      match rstrip rest with
      | EmptyString => if isspace c then EmptyString else String c EmptyString
      | kept => String c kept
      end
  end.

Definition strip (s : string) : string := rstrip (lstrip s).

(** [s.startswith(p)]. *)
Fixpoint startswith (p s : string) : bool :=
  match p, s with
  | EmptyString, _ => true
  | String a p', String b s' => if Ascii.eqb a b then startswith p' s' else false
  | String _ _, EmptyString => false
  end.

(** [needle in haystack]. *)
Fixpoint contains (needle haystack : string) : bool :=
  startswith needle haystack ||
  match haystack with
  | EmptyString => false
  | String _ rest => contains needle rest
  end.

(** [s.split(sep_char)] for a one-character separator: never empty. *)
Fixpoint split_on (sep : ascii) (s : string) : list string :=
  match s with
  | EmptyString => [EmptyString]
  | String c rest =>
      if Ascii.eqb c sep then EmptyString :: split_on sep rest
      else match split_on sep rest with
           | [] => [String c EmptyString]
           | first :: others => String c first :: others
           end
  end.

(** [sep.join(parts)]. *)
Fixpoint join (sep : string) (parts : list string) : string :=
  match parts with
  | [] => EmptyString
  | [p] => p
  | p :: rest => p +:+ sep +:+ join sep rest
  end.

(** [xs[1:-1]]: without the first and the last element. *)
Definition slice_1_m1 {A} (xs : list A) : list A := removelast (tl xs).

(** [s[:n]]. *)
Fixpoint take_chars (n : nat) (s : string) : string :=
  match n, s with
  | S n', String c rest => String c (take_chars n' rest)
  | _, _ => EmptyString
  end.

End PyStr.

Import PyStr.

(** ** Data model *)

(** A value decoded by [json.loads]. *)
Inductive json : Type :=
| JNull
| JBool (b : bool)
| JNum (q : Q)
| JStr (s : string)
| JArr (items : list json)
| JObj (fields : gmap string json).

Inductive pyexn : Type :=
| AttributeError
| TypeError
| KeyError
| ValueError
| RecursionError
| GraphRecursionError.

Inductive outcome (A : Type) : Type :=
| Ok (a : A)
| Raise (e : pyexn).
Arguments Ok {A} a.
Arguments Raise {A} e.

Definition obind {A B} (o : outcome A) (k : A -> outcome B) : outcome B :=
  match o with
  | Ok a => k a
  | Raise e => Raise e
  end.

Notation "'try!' x := c 'in' k" := (obind c (fun x => k))
  (at level 10, x name, c at level 100, k at level 200).

(** What [json.loads] does with a text.  [json.JSONDecodeError] is the
    error of a malformed document; it is a subclass of [ValueError], so a
    handler for it does not catch the plain [ValueError] the decoder
    raises on an integer literal longer than the interpreter's digit
    limit, nor the [RecursionError] it raises on too deep a nesting. *)
Inductive loads_result : Type :=
| Loads (payload : json)
| LoadsJSONDecodeError
| LoadsValueError
| LoadsRecursionError.

(** [d.get(key, default)]: only a dict has [get]. *)
Definition py_dict_get (d : json) (key : string) (dflt : json) : outcome json :=
  match d with
  | JObj fields => Ok (default dflt (fields !! key))
  | _ => Raise AttributeError
  end.

Definition Qltb (a b : Q) : bool := negb (Qle_bool b a).

(** [v < bound] for a float literal [bound]: numbers and booleans compare,
    everything else is a [TypeError]. *)
Definition py_lt_float (v : json) (bound : Q) : outcome bool :=
  match v with
  | JNum q => Ok (Qltb q bound)
  | JBool b => Ok (Qltb (if b then 1 else 0) bound)
  | _ => Raise TypeError
  end.

(** A LangChain [Document]. *)
Record Document : Type := {
  page_content : string;
  metadata : gmap string json;
}.

(** [agents/state.py]: the shared pipeline state.  The two keys the code
    reads with [state.get(key, default)] are optional. *)
Record AgentState : Type := {
  query : string;
  query_type : string;
  target_regulations : list string;
  retrieved_docs : list Document;
  answer : string;
  verification : option json;
  retry_count : option Z;
}.

Definition set_query_type (v : string) (s : AgentState) : AgentState :=
  {| query := query s; query_type := v;
     target_regulations := target_regulations s;
     retrieved_docs := retrieved_docs s; answer := answer s;
     verification := verification s; retry_count := retry_count s |}.

Definition set_target_regulations (v : list string) (s : AgentState) : AgentState :=
  {| query := query s; query_type := query_type s;
     target_regulations := v;
     retrieved_docs := retrieved_docs s; answer := answer s;
     verification := verification s; retry_count := retry_count s |}.

Definition set_retrieved_docs (v : list Document) (s : AgentState) : AgentState :=
  {| query := query s; query_type := query_type s;
     target_regulations := target_regulations s;
     retrieved_docs := v; answer := answer s;
     verification := verification s; retry_count := retry_count s |}.

Definition set_answer (v : string) (s : AgentState) : AgentState :=
  {| query := query s; query_type := query_type s;
     target_regulations := target_regulations s;
     retrieved_docs := retrieved_docs s; answer := v;
     verification := verification s; retry_count := retry_count s |}.

Definition set_verification (v : json) (s : AgentState) : AgentState :=
  {| query := query s; query_type := query_type s;
     target_regulations := target_regulations s;
     retrieved_docs := retrieved_docs s; answer := answer s;
     verification := Some v; retry_count := retry_count s |}.

Definition set_retry_count (v : Z) (s : AgentState) : AgentState :=
  {| query := query s; query_type := query_type s;
     target_regulations := target_regulations s;
     retrieved_docs := retrieved_docs s; answer := answer s;
     verification := verification s; retry_count := Some v |}.

(** What the text-generation client is invoked with. *)
Inductive llm_input : Type :=
| Prompt (text : string)
| Messages (msgs : list (string * string)).

(** One call to the vector index and what it answered. *)
Record SearchEvent : Type := {
  ev_query : string;
  ev_k : Z;
  ev_filter : option (gmap string string);
  ev_results : list Document;
}.

(** ** [agents/router.py]: regulation detection *)

Definition KNOWN_REGULATIONS : list string :=
  ["SR 11-7"; "NIST AI RMF"; "ISO 42001"; "NAIC Model Bulletin";
   "Colorado SB21-169"].

(** The [patterns] dict of [detect_regulations], in insertion order. *)
Definition patterns : list (string * list string) :=
  [ ("SR 11-7", ["sr 11-7"; "sr11-7"; "sr1107"; "sr 1107"]);
    ("NIST AI RMF", ["nist"; "ai rmf"; "ai 100-1"; "ai100"]);
    ("ISO 42001", ["iso 42001"; "iso42001"]);
    ("NAIC Model Bulletin", ["naic"; "model bulletin"]);
    ("Colorado SB21-169", ["colorado"; "sb21-169"; "sb 21-169"; "sb21169"]) ].

(** The inner loop: append the regulation at the first keyword found in
    the lowered query, then [break]. *)
Fixpoint scan_keywords (query_lower regulation : string) (keywords : list string)
    (found : list string) : list string :=
  match keywords with
  | [] => found
  | keyword :: others =>
      if contains keyword query_lower then found ++ [regulation]
      else scan_keywords query_lower regulation others found
  end.

Fixpoint scan_patterns (query_lower : string) (items : list (string * list string))
    (found : list string) : list string :=
  match items with
  | [] => found
  | (regulation, keywords) :: others =>
      scan_patterns query_lower others
        (scan_keywords query_lower regulation keywords found)
  end.

Definition detect_regulations (query : string) : list string :=
  let query_lower := lower query in
  scan_patterns query_lower patterns [].

Definition valid_types : gset string :=
  {[ "LOOKUP"; "COMPARE"; "CHECKLIST"; "EXPLAIN" ]}.

(** ** Prompt templates *)

(** [CLASSIFICATION_PROMPT.format(query=query)]. *)
Definition CLASSIFICATION_PROMPT (query : string) : string :=
  "You are a regulatory compliance query classifier.

Classify the following question into exactly ONE of these categories:

- LOOKUP: The user wants a specific fact or detail from one regulation.
  Example: " +:+ dquote +:+ "What does SR 11-7 say about model documentation?" +:+ dquote +:+ "

- COMPARE: The user wants to compare across multiple regulations.
  Example: " +:+ dquote +:+ "How do NIST AI RMF and SR 11-7 differ on risk assessment?" +:+ dquote +:+ "

- CHECKLIST: The user wants a list of requirements, steps, or action items.
  Example: " +:+ dquote +:+ "What do I need to comply with NAIC AI guidelines?" +:+ dquote +:+ "

- EXPLAIN: The user wants a concept or term explained.
  Example: " +:+ dquote +:+ "What is effective challenge in model validation?" +:+ dquote +:+ "

Question: " +:+ query +:+ "

Respond with ONLY the category name (LOOKUP, COMPARE, CHECKLIST, or EXPLAIN).
Nothing else.".

Definition SYSTEM_PROMPT : string :=
  "You are a regulatory compliance expert specializing in AI and model risk management.

Your task: Answer the user's question using ONLY the provided source documents.

Rules:
1. ONLY use information from the provided sources. Never add external knowledge.
2. Include inline citations in the format [Source: Regulation Name, Page X].
3. If the sources don't contain enough information to fully answer, explicitly state what is missing.
4. Be precise — regulatory guidance requires accuracy.

Style guidance based on question type:
- LOOKUP: Be concise and direct. Get to the point quickly.
- COMPARE: Use a structured format. Compare point by point.
- CHECKLIST: Return a numbered list of requirements or steps.
- EXPLAIN: Provide a clear, thorough explanation. Define key terms.".

(** [USER_PROMPT.format(query_type=..., context=..., query=...)]. *)
Definition USER_PROMPT (query_type context query : string) : string :=
  "Question type: " +:+ query_type +:+ "

Source documents:
" +:+ context +:+ "

Question: " +:+ query +:+ "

Provide your answer with inline citations.".

(** [VERIFICATION_PROMPT.format(sources=..., answer=...)]. *)
Definition VERIFICATION_PROMPT (sources answer : string) : string :=
  "You are a fact-checker for regulatory compliance content.

Your job: Compare the ANSWER against the SOURCE DOCUMENTS and verify each claim.

For each distinct claim or statement in the answer, determine:
- SUPPORTED: The claim is directly backed by text in the source documents
- PARTIAL: The claim is related to source content but not an exact match
- UNSUPPORTED: No source document supports this claim

SOURCE DOCUMENTS:
" +:+ sources +:+ "

ANSWER TO VERIFY:
" +:+ answer +:+ "

Respond with valid JSON only (no markdown, no extra text):
{
  " +:+ dquote +:+ "claims" +:+ dquote +:+ ": [
    {" +:+ dquote +:+ "text" +:+ dquote +:+ ": " +:+ dquote +:+ "the claim text" +:+ dquote +:+ ", " +:+ dquote +:+ "status" +:+ dquote +:+ ": " +:+ dquote +:+ "SUPPORTED" +:+ dquote +:+ ", " +:+ dquote +:+ "source" +:+ dquote +:+ ": " +:+ dquote +:+ "Regulation Name, Page X" +:+ dquote +:+ "},
    {" +:+ dquote +:+ "text" +:+ dquote +:+ ": " +:+ dquote +:+ "another claim" +:+ dquote +:+ ", " +:+ dquote +:+ "status" +:+ dquote +:+ ": " +:+ dquote +:+ "UNSUPPORTED" +:+ dquote +:+ ", " +:+ dquote +:+ "source" +:+ dquote +:+ ": null}
  ],
  " +:+ dquote +:+ "confidence" +:+ dquote +:+ ": 0.85,
  " +:+ dquote +:+ "summary" +:+ dquote +:+ ": " +:+ dquote +:+ "X of Y claims are supported by source documents" +:+ dquote +:+ "
}

The confidence score should be:
- 1.0 if all claims are SUPPORTED
- 0.0 if all claims are UNSUPPORTED
- Proportional based on the ratio of SUPPORTED claims".

(** ** [ingestion/ingest.py]: tagging the loaded pages *)

From Stdlib Require DecimalString.

(** [str(n)] for a length. *)
Definition str_of_nat (n : nat) : string :=
  DecimalString.NilEmpty.string_of_uint (Nat.to_uint n).

(** The [REGULATION_MAP] dict, in insertion order. *)
Definition REGULATION_MAP : list (string * string) :=
  [ ("sr1107", "SR 11-7");
    ("sr11-7", "SR 11-7");
    ("nist", "NIST AI RMF");
    ("ai100", "NIST AI RMF");
    ("iso42001", "ISO 42001");
    ("iso_42001", "ISO 42001");
    ("naic", "NAIC Model Bulletin");
    ("colorado", "Colorado SB21-169");
    ("sb21", "Colorado SB21-169") ].

(** The loop of [detect_regulation_name]: return at the first key found in
    the lowered name. *)
Fixpoint scan_regulation_map (name_lower : string)
    (items : list (string * string)) : string :=
  match items with
  | [] => "Unknown"
  | (key, regulation) :: others =>
      if contains key name_lower then regulation
      else scan_regulation_map name_lower others
  end.

Definition detect_regulation_name (filename : string) : string :=
  let name_lower := lower filename in
  scan_regulation_map name_lower REGULATION_MAP.

(** A file matched by [data_dir.glob("*.pdf")]: its name and the pages
    [PyPDFLoader] loads from it. *)
Record PdfFile : Type := {
  pdf_name : string;
  pdf_pages : list Document;
}.

(** How [load_pdfs] ends: with the pages, or through [sys.exit]. *)
Inductive load_result : Type :=
| Loaded (all_docs : list Document)
| SystemExit (code : Z).

(** The two metadata assignments made on every page. *)
Definition tag_page (regulation_name name : string) (page : Document) : Document :=
  {| page_content := page_content page;
     metadata := <[ "source" := JStr name ]>
                 (<[ "regulation" := JStr regulation_name ]> (metadata page)) |}.

(** The [for pdf_path in pdf_files] loop; [printed] collects the lines
    written with [print]. *)
Fixpoint load_each (pdf_files : list PdfFile) (all_docs : list Document)
    (printed : list string) : list string * list Document :=
  match pdf_files with
  | [] => (printed, all_docs)
  | pdf_path :: others =>
      let printed := printed ++ ["Loading: " +:+ pdf_name pdf_path] in
      let regulation_name := detect_regulation_name (pdf_name pdf_path) in
      let printed :=
        printed ++ ["  -> Detected regulation: " +:+ regulation_name] in
      let pages :=
        map (tag_page regulation_name (pdf_name pdf_path)) (pdf_pages pdf_path) in
      let all_docs := all_docs ++ pages in
      let printed :=
        printed ++ ["  -> Loaded " +:+ str_of_nat (length pages) +:+ " pages"] in
      load_each others all_docs printed
  end.

Definition load_pdfs (data_dir : string) (pdf_files : list PdfFile)
    : list string * load_result :=
  match pdf_files with
  | [] =>
      (["No PDF files found in " +:+ data_dir;
        "Please add regulatory PDF documents to the data/ directory."],
       SystemExit 1)
  | _ =>
      let (printed, all_docs) := load_each pdf_files [] [] in
      (printed, Loaded all_docs)
  end.

(** ** [main.py]: the origins allowed by the CORS middleware *)

Definition _default_origins : list string :=
  ["http://localhost:5173"; "http://localhost:3000"].

(** [allowed_origins] as a function of [os.getenv("CORS_ORIGINS")]: an
    unset or empty variable is falsy. *)
Definition allowed_origins (_cors_origins : option string) : list string :=
  match _cors_origins with
  | Some value =>
      if String.eqb value EmptyString then _default_origins
      else map strip (split_on ","%char value)
  | None => _default_origins
  end.

(** ** A scripted environment

    A small closed instance of the external services, used to run the
    pipeline on concrete inputs: the text-generation service replays a
    script, the index holds four passages, and the decoder knows a few
    payloads and the positive integer literals, which it refuses beyond
    the interpreter's limit of 4300 digits. *)

Module Scripted.

(** The remaining replies of the text-generation service. *)
Definition World : Type := list string.

Definition chat_invoke (model : string) (input : llm_input) (w : World)
    : string * World :=
  match w with
  | [] => (EmptyString, [])
  | reply :: rest => (reply, rest)
  end.

Definition passage (regulation : string) (page : Z) (text : string) : Document :=
  {| page_content := text;
     metadata := <[ "regulation" := JStr regulation ]>
                 (<[ "page" := JNum (inject_Z page) ]> ∅) |}.

Definition corpus : list Document :=
  [ passage "SR 11-7" 3 "Model documentation should be detailed.";
    passage "SR 11-7" 9 "Validation requires effective challenge.";
    passage "NIST AI RMF" 12 "Govern, map, measure, manage.";
    passage "ISO 42001" 4 "An AI management system is established." ].

Definition matches (filter : option (gmap string string)) (doc : Document) : bool :=
  match filter with
  | None => true
  | Some f =>
      match f !! "regulation", metadata doc !! "regulation" with
      | Some wanted, Some (JStr actual) => String.eqb wanted actual
      | _, _ => false
      end
  end.

Definition chroma_search (query : string) (k : Z)
    (filter : option (gmap string string)) (w : World)
    : list Document * World :=
  (take (Z.to_nat k) (List.filter (matches filter) corpus), w).

Definition low_payload : string :=
  "{" +:+ dquote +:+ "confidence" +:+ dquote +:+ ": 0.2}".

Definition high_payload : string :=
  "{" +:+ dquote +:+ "confidence" +:+ dquote +:+ ": 0.9}".

(** The value of a string of decimal digits, read after [acc]. *)
Fixpoint digits_value (acc : Z) (s : string) : option Z :=
  match s with
  | EmptyString => Some acc
  | String c rest =>
      let n := nat_of_ascii c in
      if Nat.leb 48 n && Nat.leb n 57 then
        digits_value (10 * acc + Z.of_nat (n - 48)) rest
      else None
  end.

(** A positive integer literal: digits only, the first of them not 0. *)
Definition positive_literal (text : string) : option Z :=
  match text with
  | String c _ =>
      if Nat.leb 49 (nat_of_ascii c) then digits_value 0 text else None
  | EmptyString => None
  end.

(** [sys.get_int_max_str_digits()]. *)
Definition int_max_str_digits : nat := 4300.

Definition json_loads (text : string) : loads_result :=
  if String.eqb text low_payload then
    Loads (JObj {[ "confidence" := JNum (1 # 5) ]})
  else if String.eqb text high_payload then
    Loads (JObj {[ "confidence" := JNum (9 # 10) ]})
  else if String.eqb text "{}" then Loads (JObj ∅)
  else if String.eqb text "[]" then Loads (JArr [])
  else
    match positive_literal text with
    | Some n =>
        if Nat.ltb int_max_str_digits (String.length text)
        then LoadsValueError
        else Loads (JNum (inject_Z n))
    | None => LoadsJSONDecodeError
    end.

(** A reply of [n] digits 1. *)
Fixpoint ones (n : nat) : string :=
  match n with
  | O => EmptyString
  | S n' => String "1"%char (ones n')
  end.

Definition py_str (v : json) : string :=
  match v with
  | JStr s => s
  | _ => "?"
  end.

End Scripted.

(** ** The pipeline over its external services *)

Section Pipeline.

(** The state of everything outside the process: the text-generation
    service and the vector index. *)
Context {World : Type}.

(** [ChatOpenAI(model=..., temperature=0).invoke(input).content]. *)
Variable chat_invoke : string -> llm_input -> World -> string * World.

(** [Chroma.similarity_search(query, k=k, filter=...)]. *)
Variable chroma_search :
  string -> Z -> option (gmap string string) -> World -> list Document * World.

(** [json.loads]. *)
Variable json_loads : string -> loads_result.

(** [str(v)] as used by f-string interpolation. *)
Variable py_str : json -> string.

(** The world together with an observer of the vector index: every call
    made to it, in order, with the passages it answered. *)
Record Env : Type := {
  world : World;
  searches : list SearchEvent;
}.

Definition M (A : Type) : Type := Env -> A * Env.

Definition ret {A} (a : A) : M A := fun env => (a, env).

Definition bind {A B} (c : M A) (k : A -> M B) : M B :=
  fun env => let (a, env') := c env in k a env'.

Notation "'do!' x := c 'in' k" := (bind c (fun x => k))
  (at level 10, x name, c at level 100, k at level 200).

Definition llm_invoke (model : string) (input : llm_input) : M string :=
  fun env =>
    let (content, w) := chat_invoke model input (world env) in
    (content, {| world := w; searches := searches env |}).

Definition vectorstore_similarity_search (query : string) (k : Z)
    (filter : option (gmap string string)) : M (list Document) :=
  fun env =>
    let (results, w) := chroma_search query k filter (world env) in
    (results,
     {| world := w;
        searches := searches env ++
          [{| ev_query := query; ev_k := k; ev_filter := filter;
              ev_results := results |}] |}).

(** *** [ingestion/retriever.py] *)

(** [if filter_dict:] is false for [None] and for the empty dict. *)
Definition similarity_search (query : string) (k : Z)
    (filter_dict : option (gmap string string)) : M (list Document) :=
  match filter_dict with
  | Some f =>
      if decide (f = ∅) then vectorstore_similarity_search query k None
      else vectorstore_similarity_search query k (Some f)
  | None => vectorstore_similarity_search query k None
  end.

(** *** [agents/router.py] *)

Definition router_agent (state : AgentState) : M AgentState :=
  let query := query state in
  let prompt := CLASSIFICATION_PROMPT query in
  do! response := llm_invoke "gpt-4o-mini" (Prompt prompt) in
  let query_type := upper (strip response) in
  let query_type :=
    if decide (query_type ∉ valid_types) then "EXPLAIN" else query_type in
  let target_regulations := detect_regulations query in
  ret (set_target_regulations target_regulations
         (set_query_type query_type state)).

(** *** [agents/retriever.py] *)

Definition regulation_filter (reg : string) : option (gmap string string) :=
  Some {[ "regulation" := reg ]}.

(** The [for reg in target_regulations] loop with [results.extend]. *)
Fixpoint search_each (query : string) (per_regulation : Z)
    (regs : list string) (results : list Document) : M (list Document) :=
  match regs with
  | [] => ret results
  | reg :: others =>
      do! reg_results :=
        similarity_search query per_regulation (regulation_filter reg) in
      search_each query per_regulation others (results ++ reg_results)
  end.

(** The [if / elif / elif / else] chain choosing the strategy. *)
Definition primary_retrieval (query query_type : string)
    (target_regulations : list string) : M (list Document) :=
  if String.eqb query_type "LOOKUP"
     && Nat.eqb (length target_regulations) 1 then
    similarity_search query 5
      (regulation_filter (nth 0 target_regulations EmptyString))
  else if String.eqb query_type "COMPARE"
          && Nat.leb 2 (length target_regulations) then
    let per_regulation :=
      Z.max 5 (10 / Z.of_nat (length target_regulations)) in
    search_each query per_regulation target_regulations []
  else if String.eqb query_type "COMPARE" then
    similarity_search query 10 None
  else
    similarity_search query 7 None.

Definition retriever_agent (state : AgentState) : M AgentState :=
  let query := query state in
  let query_type := query_type state in
  let target_regulations := target_regulations state in
  let retry_count := default 0%Z (retry_count state) in
  do! results := primary_retrieval query query_type target_regulations in
  do! results :=
    (if (0 <? retry_count)%Z && Nat.ltb (length results) 3
     then similarity_search query 10 None
     else ret results) in
  ret (set_retry_count (retry_count + 1)
         (set_retrieved_docs results state)).

(** *** [agents/synthesizer.py] *)

Definition format_context (docs : list Document) : string :=
  let formatted :=
    map (fun doc =>
           let regulation :=
             default (JStr "Unknown") (metadata doc !! "regulation") in
           let page := default (JStr "?") (metadata doc !! "page") in
           let text := page_content doc in
           "[Source: " +:+ py_str regulation +:+ " | Page " +:+ py_str page
             +:+ "]" +:+ newline +:+ text)
        docs in
  join (newline +:+ newline +:+ "---" +:+ newline +:+ newline) formatted.

Definition synthesizer_agent (state : AgentState) : M AgentState :=
  let query := query state in
  let query_type := query_type state in
  let docs := retrieved_docs state in
  let context := format_context docs in
  let user_message := USER_PROMPT query_type context query in
  let messages := [("system", SYSTEM_PROMPT); ("user", user_message)] in
  do! response := llm_invoke "gpt-4o" (Messages messages) in
  ret (set_answer response state).

(** *** [agents/compliance_checker.py] *)

Definition format_sources_for_check (docs : list Document) : string :=
  let formatted :=
    map (fun doc =>
           let regulation :=
             default (JStr "Unknown") (metadata doc !! "regulation") in
           let page := default (JStr "?") (metadata doc !! "page") in
           "[" +:+ py_str regulation +:+ " | Page " +:+ py_str page +:+ "]"
             +:+ newline +:+ page_content doc)
        docs in
  join (newline +:+ newline) formatted.

(** The safe default returned when decoding fails. *)
Definition parse_failure_default : json :=
  JObj (<[ "claims" := JArr [] ]>
       (<[ "confidence" := JNum (1 # 2) ]>
       (<[ "summary" := JStr "Could not parse verification response" ]> ∅))).

(** The text handed to [json.loads]: stripped, and without its first and
    last line when it starts with a code fence. *)
Definition fence_stripped (response_text : string) : string :=
  let text := strip response_text in
  if startswith "```" text then
    let lines := split_on "010"%char text in
    join newline (slice_1_m1 lines)
  else text.

(** [try: return json.loads(text)] with its one handler,
    [except json.JSONDecodeError]: every other error of the decoder
    leaves the function. *)
Definition parse_verification_response (response_text : string) : outcome json :=
  let text := fence_stripped response_text in
  match json_loads text with
  | Loads payload => Ok payload
  | LoadsJSONDecodeError => Ok parse_failure_default
  | LoadsValueError => Raise ValueError
  | LoadsRecursionError => Raise RecursionError
  end.

Definition compliance_checker_agent (state : AgentState)
    : M (outcome AgentState) :=
  let answer := answer state in
  let docs := retrieved_docs state in
  let sources_text := format_sources_for_check docs in
  let prompt := VERIFICATION_PROMPT sources_text answer in
  do! response := llm_invoke "gpt-4o-mini" (Prompt prompt) in
  ret (try! verification := parse_verification_response response in
       Ok (set_verification verification state)).

(** *** [graph.py] *)

(** The confidence the retry gate reads. *)
Definition gate_confidence (state : AgentState) : outcome json :=
  py_dict_get (default (JObj ∅) (verification state)) "confidence" (JNum 1).

Definition should_retry (state : AgentState) : outcome string :=
  try! confidence := gate_confidence state in
  let retry_count := default 0%Z (retry_count state) in
  try! low := py_lt_float confidence (7 # 10) in
  if low && (retry_count <=? 2)%Z then Ok "retry" else Ok "end".

(** The nodes added by [build_graph], and LangGraph's [END]. *)
Inductive node : Type :=
| router
| retriever
| synthesizer
| compliance_checker
| END.

Definition node_action (n : node) (state : AgentState) : M (outcome AgentState) :=
  match n with
  | router => do! s := router_agent state in ret (Ok s)
  | retriever => do! s := retriever_agent state in ret (Ok s)
  | synthesizer => do! s := synthesizer_agent state in ret (Ok s)
  | compliance_checker => compliance_checker_agent state
  | END => ret (Ok state)
  end.

Definition entry_point : node := router.

(** The dispatch table of the conditional edge. *)
Definition retry_path_map (label : string) : option node :=
  if String.eqb label "retry" then Some retriever
  else if String.eqb label "end" then Some END
  else None.

(** [add_edge] and [add_conditional_edges] of [build_graph]. *)
Definition next_node (n : node) (state : AgentState) : outcome node :=
  match n with
  | router => Ok retriever
  | retriever => Ok synthesizer
  | synthesizer => Ok compliance_checker
  | compliance_checker =>
      try! label := should_retry state in
      match retry_path_map label with
      | Some target => Ok target
      | None => Raise KeyError
      end
  | END => Ok END
  end.

Inductive run_result : Type :=
| Finished (state : AgentState)
| Raised (e : pyexn).

(** The compiled graph: run the current node, follow its edge, stop at
    [END]; [steps] bounds the number of node executions.  The trace lists
    the nodes run with the state each returned, oldest first. *)
Fixpoint run_graph (steps : nat) (n : node) (state : AgentState)
    (trace : list (node * AgentState))
    : M (run_result * list (node * AgentState)) :=
  match n with
  | END => ret (Finished state, trace)
  | _ =>
      match steps with
      | O => ret (Raised GraphRecursionError, trace)
      | S steps' =>
          do! stepped := node_action n state in
          match stepped with
          | Raise e => ret (Raised e, trace)
          | Ok state' =>
              let trace' := trace ++ [(n, state')] in
              match next_node n state' with
              | Raise e => ret (Raised e, trace')
              | Ok n' => run_graph steps' n' state' trace'
              end
          end
      end
  end.

(** LangGraph's default [recursion_limit]. *)
Definition recursion_limit : nat := 25.

Definition app_invoke (initial_state : AgentState)
    : M (run_result * list (node * AgentState)) :=
  run_graph recursion_limit entry_point initial_state [].

(** One entry of the [sources] list of the response. *)
Record Source : Type := {
  src_regulation : json;
  src_page : json;
  src_content : string;
}.

Definition format_sources (docs : list Document) : list Source :=
  map (fun doc =>
         {| src_regulation :=
              default (JStr "Unknown") (metadata doc !! "regulation");
            src_page := default (JNum 0) (metadata doc !! "page");
            src_content := take_chars 300 (page_content doc) |})
      docs.

Record Response : Type := {
  resp_answer : string;
  resp_sources : list Source;
  resp_confidence : json;
  resp_query_type : string;
  resp_verification : json;
}.

Definition initial_state (query : string) : AgentState :=
  {| query := query;
     query_type := EmptyString;
     target_regulations := [];
     retrieved_docs := [];
     answer := EmptyString;
     verification := Some (JObj ∅);
     retry_count := Some 0%Z |}.

(** The [return {...}] of [ask_question]. *)
Definition package_response (result : AgentState) : outcome Response :=
  try! confidence :=
    py_dict_get (default (JObj ∅) (verification result)) "confidence" (JNum 0) in
  Ok {| resp_answer := answer result;
        resp_sources := format_sources (retrieved_docs result);
        resp_confidence := confidence;
        resp_query_type := query_type result;
        resp_verification := default (JObj ∅) (verification result) |}.

Definition ask_question (query : string) : M (outcome Response) :=
  do! ran := app_invoke (initial_state query) in
  match fst ran with
  | Finished result => ret (package_response result)
  | Raised e => ret (Raise e)
  end.

(** ** Vocabulary of the statements *)

(** [w] occurs in [s] as a contiguous substring. *)
Definition occurs (w s : string) : Prop :=
  exists pre post, s = pre +:+ w +:+ post.

(** Some substring of [q] is [keyword] up to letter case. *)
Definition occurs_ignoring_case (keyword q : string) : Prop :=
  exists pre w post, q = pre +:+ w +:+ post /\ lower w = keyword.

Fixpoint all_space (s : string) : bool :=
  match s with
  | EmptyString => true
  | String c rest => isspace c && all_space rest
  end.

Fixpoint no_space (s : string) : bool :=
  match s with
  | EmptyString => true
  | String c rest => negb (isspace c) && no_space rest
  end.

Fixpoint no_newline (s : string) : bool :=
  match s with
  | EmptyString => true
  | String c rest => negb (Ascii.eqb c "010"%char) && no_newline rest
  end.

(** What a vector-index call was asked: query, count and filter. *)
Definition call_of (e : SearchEvent)
    : string * Z * option (gmap string string) :=
  (ev_query e, ev_k e, ev_filter e).

(** The vector-index calls a computation adds to the log of [env]. *)
Definition issued_by {A} (c : M A) (env : Env) : list SearchEvent :=
  drop (length (searches env)) (searches (snd (c env))).

Definition node_eqb (a b : node) : bool :=
  match a, b with
  | router, router | retriever, retriever | synthesizer, synthesizer
  | compliance_checker, compliance_checker | END, END => true
  | _, _ => false
  end.

(** How often a node was run in a trace. *)
Definition visits (n : node) (trace : list (node * AgentState)) : nat :=
  length (List.filter (fun entry => node_eqb (fst entry) n) trace).

Definition mentions (query_lower : string) (item : string * list string) : bool :=
  existsb (fun keyword => contains keyword query_lower) (snd item).

(** The label the router stores for a given service reply. *)
Definition normalized_label (reply : string) : string :=
  let query_type := upper (strip reply) in
  if decide (query_type ∉ valid_types) then "EXPLAIN" else query_type.

(** A fenced block: an opening fence line with an optional language tag,
    the body, and a closing fence line. *)
Definition fenced (tag body : string) : string :=
  "```" +:+ tag +:+ newline +:+ body +:+ newline +:+ "```".

(** The strategy table: the calls planned for an intent and the detected
    regulations, as (query, count, filter). *)
Definition strategy_table (q intent : string) (regs : list string)
    : list (string * Z * option (gmap string string)) :=
  if String.eqb intent "LOOKUP" && Nat.eqb (length regs) 1 then
    [(q, 5%Z, regulation_filter (nth 0 regs EmptyString))]
  else if String.eqb intent "COMPARE" && Nat.leb 2 (length regs) then
    map (fun reg =>
           (q, Z.max 5 (10 / Z.of_nat (length regs)), regulation_filter reg))
        regs
  else if String.eqb intent "COMPARE" then [(q, 10%Z, None)]
  else [(q, 7%Z, None)].

(** A computation that only appends to the search log. *)
Definition logs {A} (c : M A) (env : Env) (evs : list SearchEvent) : Prop :=
  searches (snd (c env)) = searches env ++ evs.

(** Whether the widening rule applies: a retry with fewer than three
    passages from the primary strategy. *)
Definition widens (state : AgentState) (primary : list Document) : bool :=
  (0 <? default 0%Z (retry_count state))%Z && Nat.ltb (length primary) 3.

Definition same_routing (s : AgentState) (entry : node * AgentState) : Prop :=
  query_type (snd entry) = query_type s /\
  target_regulations (snd entry) = target_regulations s.

(** What a run started at the retriever guarantees when at most [n]
    passes remain: it ends without exhausting its steps, it adds at most
    [n] retriever entries and no router entry to the trace, and every
    state it produces keeps the routing of the start state. *)
Definition bounded_run (s : AgentState) (n : nat)
    (trace : list (node * AgentState))
    (out : run_result * list (node * AgentState)) : Prop :=
  fst out <> Raised GraphRecursionError /\
  (forall f, fst out = Finished f -> same_routing s (END, f)) /\
  exists added,
    snd out = trace ++ added /\
    visits retriever added <= n /\
    visits router added = 0 /\
    length added <= 3 * n /\
    Forall (same_routing s) added.






(** A call the retriever may make for query [q] with detected regulations
    [regs]: unfiltered with k=7 or k=10, or filtered to one of [regs] with
    k=5. *)
Definition planned_call (q : string) (regs : list string)
    (c : string * Z * option (gmap string string)) : Prop :=
  fst (fst c) = q /\
  ((snd c = None /\ (snd (fst c) = 7%Z \/ snd (fst c) = 10%Z)) \/
   (exists reg, reg ∈ regs /\
                snd c = Some {[ "regulation" := reg ]} /\
                snd (fst c) = 5%Z)).

(** The index honours the requested count: it never answers more than k
    passages. *)
Definition honours_k : Prop :=
  forall (q : string) (k : Z) (filter : option (gmap string string)) (w : World),
    length (fst (chroma_search q k filter w)) <= Z.to_nat k.

(** How often a character occurs in a string. *)
Fixpoint count_char (c : ascii) (s : string) : nat :=
  match s with
  | EmptyString => 0
  | String x rest => (if Ascii.eqb x c then 1 else 0) + count_char c rest
  end.

(** The errors of the decoder that [parse_verification_response] does not
    handle. *)
Definition decoder_error (e : pyexn) : Prop :=
  e = ValueError \/ e = RecursionError.

(** A run that ends by the retry gate on the state [s3] of its last
    compliance check: at END with that state when the gate answers end,
    with the gate's error when it raises. *)
Definition ends_by_gate (s3 : AgentState) (res : run_result) : Prop :=
  match next_node compliance_checker s3 with
  | Ok END => res = Finished s3
  | Ok _ => False
  | Raise e => res = Raised e
  end.

(** A string of ASCII characters only, on which [lower] and [upper] are
    exactly [str.lower] and [str.upper]. *)
Fixpoint is_ascii (s : string) : bool :=
  match s with
  | EmptyString => true
  | String c rest => Nat.ltb (nat_of_ascii c) 128 && is_ascii rest
  end.

(** ** Facts about the string built-ins *)

Local Arguments String.append !_ _ / : simpl nomatch.

Lemma append_empty_r (s : string) : s +:+ EmptyString = s.
Proof. induction s as [|c s IH]; simpl; [reflexivity | now rewrite IH]. Qed.

Lemma append_assoc (a b c : string) : (a +:+ b) +:+ c = a +:+ (b +:+ c).
Proof. induction a as [|x a IH]; simpl; [reflexivity | now rewrite IH]. Qed.

Lemma map_chars_app (f : ascii -> ascii) (a b : string) :
  map_chars f (a +:+ b) = map_chars f a +:+ map_chars f b.
Proof. induction a as [|x a IH]; simpl; [reflexivity | now rewrite IH]. Qed.

(** A split of the image of [map_chars] comes from a split of the source. *)
Lemma map_chars_split (f : ascii -> ascii) (s a b : string) :
  map_chars f s = a +:+ b ->
  exists s1 s2, s = s1 +:+ s2 /\ map_chars f s1 = a /\ map_chars f s2 = b.
Proof.
  revert s. induction a as [|x a IH]; intros s H; simpl in H.
  - exists EmptyString, s. auto.
  - destruct s as [|c s]; simpl in H; [discriminate|].
    injection H as Hc Hs. destruct (IH _ Hs) as (s1 & s2 & -> & H1 & H2).
    exists (String c s1), s2. simpl. subst. auto.
Qed.

Lemma startswith_spec (p s : string) :
  startswith p s = true <-> exists post, s = p +:+ post.
Proof.
  revert s. induction p as [|a p IH]; intros s; simpl.
  - split; [intros _; now exists s | reflexivity].
  - destruct s as [|b s].
    + split; [discriminate | intros [post H]; discriminate].
    + destruct (Ascii.eqb_spec a b) as [->|Hne].
      * rewrite IH. split; intros [post H]; exists post.
        -- now rewrite H.
        -- now injection H.
      * split; [discriminate|]. intros [post H]. injection H as H1 H2.
        congruence.
Qed.

Lemma contains_spec (needle haystack : string) :
  contains needle haystack = true <-> occurs needle haystack.
Proof.
  unfold occurs. induction haystack as [|c h IH].
  - simpl. rewrite orb_false_r, startswith_spec. split.
    + intros [post H]. now exists EmptyString, post.
    + intros (pre & post & H). destruct pre; simpl in H; [now exists post|].
      discriminate.
  - cbn [contains]. rewrite orb_true_iff, startswith_spec, IH. split.
    + intros [[post H] | (pre & post & H)].
      * now exists EmptyString, post.
      * exists (String c pre), post. simpl. now rewrite H.
    + intros (pre & post & H). destruct pre as [|x pre]; simpl in H.
      * left. now exists post.
      * right. injection H as _ H. now exists pre, post.
Qed.

(** A lowercase keyword is found in the lowered query exactly when the
    query has it as a substring up to case. *)
Lemma contains_lower_spec (keyword q : string) :
  contains keyword (lower q) = true <-> occurs_ignoring_case keyword q.
Proof.
  rewrite contains_spec. unfold occurs, occurs_ignoring_case, lower. split.
  - intros (a & b & H).
    apply map_chars_split in H as (pre & rest & -> & Ha & H).
    apply map_chars_split in H as (w & post & -> & Hw & Hb).
    now exists pre, w, post.
  - intros (pre & w & post & -> & Hw).
    exists (map_chars lower_char pre), (map_chars lower_char post).
    now rewrite !map_chars_app, Hw.
Qed.

(** ** Regulation detection *)

Lemma scan_keywords_spec (ql regulation : string) (keywords found : list string) :
  scan_keywords ql regulation keywords found =
  if mentions ql (regulation, keywords) then found ++ [regulation] else found.
Proof.
  unfold mentions. simpl. induction keywords as [|k ks IH]; simpl; [reflexivity|].
  destruct (contains k ql); simpl; [reflexivity | exact IH].
Qed.

Lemma scan_patterns_spec (ql : string) (items : list (string * list string))
    (found : list string) :
  scan_patterns ql items found =
  found ++ map fst (List.filter (mentions ql) items).
Proof.
  revert found. induction items as [|[regulation keywords] rest IH];
    intros found; simpl.
  - now rewrite app_nil_r.
  - rewrite IH, scan_keywords_spec.
    destruct (mentions ql (regulation, keywords)); simpl; [|reflexivity].
    now rewrite <- app_assoc.
Qed.

Lemma map_filter_sublist {A B} (f : A -> B) (p : A -> bool) (l : list A) :
  sublist (map f (List.filter p l)) (map f l).
Proof.
  induction l as [|x l IH]; simpl; [constructor|].
  destruct (p x); simpl; now constructor.
Qed.

Lemma mentions_spec (q regulation : string) (keywords : list string) :
  mentions (lower q) (regulation, keywords) = true <->
  exists keyword, keyword ∈ keywords /\ occurs_ignoring_case keyword q.
Proof.
  unfold mentions. simpl. rewrite existsb_exists. split.
  - intros (k & Hin & Hc). exists k. split.
    + now apply list_elem_of_In.
    + now apply contains_lower_spec.
  - intros (k & Hin & Hc). exists k. split.
    + now apply list_elem_of_In.
    + now apply contains_lower_spec.
Qed.

Lemma detect_regulations_filter (q : string) :
  detect_regulations q = map fst (List.filter (mentions (lower q)) patterns).
Proof. unfold detect_regulations. now rewrite scan_patterns_spec. Qed.

Lemma catalog_names : map fst patterns = KNOWN_REGULATIONS.
Proof. reflexivity. Qed.

Lemma catalog_NoDup : NoDup KNOWN_REGULATIONS.
Proof. apply (bool_decide_unpack _). vm_compute. reflexivity. Qed.

(** C6.  For every query, [detect_regulations] returns canonical names
    without duplicates and in catalog order; a regulation is in the result
    exactly when one of its keyword variants occurs in the query as a
    substring up to letter case; with no such variant the result is
    empty. *)
Theorem detect_regulations_sound_complete (q : string) :
  NoDup (detect_regulations q) /\
  sublist (detect_regulations q) KNOWN_REGULATIONS /\
  (forall regulation : string,
      regulation ∈ detect_regulations q <->
      exists keywords keyword,
        (regulation, keywords) ∈ patterns /\ keyword ∈ keywords /\
        occurs_ignoring_case keyword q) /\
  ((forall regulation keywords keyword,
       (regulation, keywords) ∈ patterns -> keyword ∈ keywords ->
       ~ occurs_ignoring_case keyword q) ->
   detect_regulations q = []).
Proof.
  assert (Hsub : sublist (detect_regulations q) KNOWN_REGULATIONS).
  { rewrite detect_regulations_filter, <- catalog_names.
    apply map_filter_sublist. }
  assert (Hmem : forall regulation : string,
      regulation ∈ detect_regulations q <->
      exists keywords keyword,
        (regulation, keywords) ∈ patterns /\ keyword ∈ keywords /\
        occurs_ignoring_case keyword q).
  { intros regulation. rewrite detect_regulations_filter.
    rewrite list_elem_of_In, in_map_iff. split.
    - intros ([r ks] & Hr & Hin). simpl in Hr. subst r.
      apply filter_In in Hin as [Hin Hm].
      apply mentions_spec in Hm as (k & Hk & Ho).
      exists ks, k. split; [now apply list_elem_of_In | auto].
    - intros (ks & k & Hin & Hk & Ho). exists (regulation, ks). split; [reflexivity|].
      apply filter_In. split; [now apply list_elem_of_In|].
      apply mentions_spec. now exists k. }
  split; [|split; [exact Hsub | split; [exact Hmem|]]].
  - eapply sublist_NoDup; [exact catalog_NoDup | exact Hsub].
  - intros Hnone. destruct (detect_regulations q) as [|r rest] eqn:E; [reflexivity|].
    exfalso. destruct (proj1 (Hmem r)) as (ks & k & Hin & Hk & Ho).
    + apply list_elem_of_here.
    + exact (Hnone r ks k Hin Hk Ho).
Qed.

Lemma keywords_lowercase :
  Forall (fun item => Forall (fun keyword => lower keyword = keyword) (snd item))
         patterns.
Proof. repeat constructor. Qed.

(** ** Intent classification *)

Lemma isspace_upper_char (c : ascii) : isspace (upper_char c) = isspace c.
Proof. destruct c as [[] [] [] [] [] [] [] []]; reflexivity. Qed.

Lemma no_space_upper (s : string) : no_space (upper s) = no_space s.
Proof.
  unfold upper. induction s as [|c s IH]; simpl; [reflexivity|].
  now rewrite isspace_upper_char, IH.
Qed.

Lemma lstrip_all_space (ws s : string) :
  all_space ws = true -> lstrip (ws +:+ s) = lstrip s.
Proof.
  induction ws as [|c ws IH]; simpl; [reflexivity|].
  intros [Hc Hws]%andb_true_iff. rewrite Hc. auto.
Qed.

Lemma rstrip_all_space (ws : string) :
  all_space ws = true -> rstrip ws = EmptyString.
Proof.
  induction ws as [|c ws IH]; simpl; [reflexivity|].
  intros [Hc Hws]%andb_true_iff. now rewrite (IH Hws), Hc.
Qed.

Lemma rstrip_app_all_space (s ws : string) :
  all_space ws = true -> rstrip (s +:+ ws) = rstrip s.
Proof.
  intros Hws. induction s as [|c s IH]; simpl.
  - now apply rstrip_all_space.
  - now rewrite IH.
Qed.

Lemma lstrip_no_space (s : string) : no_space s = true -> lstrip s = s.
Proof.
  destruct s as [|c s]; simpl; [reflexivity|].
  intros [Hc _]%andb_true_iff. now destruct (isspace c).
Qed.

Lemma rstrip_no_space (s : string) : no_space s = true -> rstrip s = s.
Proof.
  induction s as [|c s IH]; simpl; [reflexivity|].
  intros [Hc Hs]%andb_true_iff. rewrite (IH Hs).
  destruct s; [now destruct (isspace c) | reflexivity].
Qed.

Lemma lstrip_app_no_space (s t : string) :
  s <> EmptyString -> no_space s = true -> lstrip (s +:+ t) = s +:+ t.
Proof.
  destruct s as [|c s]; [congruence|]. simpl.
  intros _ [Hc _]%andb_true_iff. now destruct (isspace c).
Qed.

(** Surrounding whitespace is removed, the core is kept. *)
Lemma strip_padded (ws1 core ws2 : string) :
  all_space ws1 = true -> all_space ws2 = true -> no_space core = true ->
  strip (ws1 +:+ core +:+ ws2) = core.
Proof.
  intros H1 H2 Hc. unfold strip. rewrite lstrip_all_space by exact H1.
  destruct core as [|c core].
  - simpl. replace ws2 with (ws2 +:+ EmptyString) by apply append_empty_r.
    rewrite lstrip_all_space by exact H2. reflexivity.
  - rewrite lstrip_app_no_space by (congruence || exact Hc).
    rewrite rstrip_app_all_space by exact H2. now apply rstrip_no_space.
Qed.

Lemma valid_types_no_space (label : string) :
  label ∈ valid_types -> no_space label = true.
Proof.
  unfold valid_types. rewrite !elem_of_union, !elem_of_singleton.
  intros [[[-> | ->] | ->] | ->]; reflexivity.
Qed.

Lemma router_agent_query_type (state : AgentState) (env : Env) :
  query_type (fst (router_agent state env)) =
  normalized_label
    (fst (chat_invoke "gpt-4o-mini"
            (Prompt (CLASSIFICATION_PROMPT (query state))) (world env))).
Proof.
  unfold router_agent, bind, llm_invoke, ret.
  destruct (chat_invoke _ _ _) as [reply w]. reflexivity.
Qed.

(** C7.  Whatever label the text-generation service replies, the router
    returns a state whose intent is one of the four valid ones: the reply
    stripped and uppercased when that is valid, EXPLAIN otherwise; a reply
    that is a valid intent up to letter case and surrounding whitespace is
    accepted as that intent. *)
Theorem router_agent_intent_total (state : AgentState) (env : Env) :
  let reply :=
    fst (chat_invoke "gpt-4o-mini"
           (Prompt (CLASSIFICATION_PROMPT (query state))) (world env)) in
  let routed := fst (router_agent state env) in
  query_type routed ∈ valid_types /\
  (upper (strip reply) ∈ valid_types ->
   query_type routed = upper (strip reply)) /\
  (upper (strip reply) ∉ valid_types -> query_type routed = "EXPLAIN") /\
  (forall ws1 core ws2 intent,
      intent ∈ valid_types -> upper core = intent ->
      all_space ws1 = true -> all_space ws2 = true ->
      reply = ws1 +:+ core +:+ ws2 ->
      query_type routed = intent).
Proof.
  intros reply routed. subst routed. rewrite router_agent_query_type.
  fold reply. unfold normalized_label.
  assert (Hexplain : "EXPLAIN" ∈ valid_types) by (unfold valid_types; set_solver).
  split; [|split; [|split]].
  - destruct (decide (upper (strip reply) ∉ valid_types)) as [Hn | Hy];
      [exact Hexplain|]. now apply dec_stable.
  - intros Hin. destruct (decide _) as [Hn | _]; [contradiction | reflexivity].
  - intros Hn. destruct (decide _) as [_ | Hy]; [reflexivity | contradiction].
  - intros ws1 core ws2 intent Hin Hup H1 H2 Hreply.
    assert (Hcore : no_space core = true).
    { rewrite <- no_space_upper. fold (upper core). rewrite Hup.
      now apply valid_types_no_space. }
    rewrite Hreply, strip_padded, Hup by assumption.
    destruct (decide _) as [Hn | _]; [contradiction | reflexivity].
Qed.

(** ** Parsing the verification reply *)

Lemma split_on_nonempty (sep : ascii) (s : string) : split_on sep s <> [].
Proof.
  induction s as [|c s IH]; simpl; [discriminate|].
  destruct (Ascii.eqb c sep); [discriminate|].
  destruct (split_on sep s); discriminate.
Qed.

Lemma split_on_app (sep : ascii) (a b : string) :
  split_on sep (a +:+ String sep b) = split_on sep a ++ split_on sep b.
Proof.
  induction a as [|c a IH]; simpl.
  - now rewrite Ascii.eqb_refl.
  - destruct (Ascii.eqb c sep); [now rewrite IH|].
    rewrite IH. pose proof (split_on_nonempty sep a) as Hne.
    destruct (split_on sep a); [congruence | reflexivity].
Qed.

Lemma split_on_no_newline (s : string) :
  no_newline s = true -> split_on "010"%char s = [s].
Proof.
  induction s as [|c s IH]; simpl; [reflexivity|].
  intros [Hc Hs]%andb_true_iff. apply negb_true_iff in Hc.
  now rewrite Hc, (IH Hs).
Qed.

Lemma join_cons_char (sep : string) (c : ascii) (p : string) (rest : list string) :
  join sep (String c p :: rest) = String c (join sep (p :: rest)).
Proof. destruct rest; reflexivity. Qed.

(** Joining the lines of a text with newlines gives the text back. *)
Lemma join_split_on_newline (s : string) :
  join newline (split_on "010"%char s) = s.
Proof.
  induction s as [|c s IH]; [reflexivity|]. cbn [split_on].
  pose proof (split_on_nonempty "010"%char s) as Hne.
  destruct (Ascii.eqb_spec c "010"%char) as [->|Hc].
  - destruct (split_on "010"%char s) as [|first others] eqn:E; [congruence|].
    change (join newline (EmptyString :: first :: others))
      with (EmptyString +:+ newline +:+ join newline (first :: others)).
    now rewrite IH.
  - destruct (split_on "010"%char s) as [|first others] eqn:E; [congruence|].
    now rewrite join_cons_char, IH.
Qed.

Lemma rstrip_app_kept (a b : string) :
  b <> EmptyString -> rstrip b = b -> rstrip (a +:+ b) = a +:+ b.
Proof.
  intros Hb Hrb. induction a as [|c a IH]; simpl; [exact Hrb|].
  rewrite IH. destruct (a +:+ b) eqn:E; [|reflexivity].
  destruct a; simpl in E; [congruence | discriminate].
Qed.

Lemma strip_fenced (ws1 ws2 tag body : string) :
  all_space ws1 = true -> all_space ws2 = true ->
  strip (ws1 +:+ fenced tag body +:+ ws2) = fenced tag body.
Proof.
  intros H1 H2. unfold strip. rewrite lstrip_all_space by exact H1.
  change (lstrip (fenced tag body +:+ ws2)) with (fenced tag body +:+ ws2).
  rewrite rstrip_app_all_space by exact H2.
  unfold fenced. rewrite <- !append_assoc.
  apply rstrip_app_kept; [discriminate | reflexivity].
Qed.

Lemma lines_of_fenced (tag body : string) :
  no_newline tag = true ->
  split_on "010"%char (fenced tag body) =
  ("```" +:+ tag) :: split_on "010"%char body ++ ["```"].
Proof.
  intros Htag. unfold fenced.
  change ("```" +:+ tag +:+ newline +:+ body +:+ newline +:+ "```")
    with (("```" +:+ tag) +:+ String "010"%char (body +:+ String "010"%char "```")).
  rewrite !split_on_app. rewrite split_on_no_newline; [reflexivity|].
  simpl. exact Htag.
Qed.

Lemma fence_stripped_fenced (ws1 ws2 tag body : string) :
  all_space ws1 = true -> all_space ws2 = true -> no_newline tag = true ->
  fence_stripped (ws1 +:+ fenced tag body +:+ ws2) = body.
Proof.
  intros H1 H2 Htag. unfold fence_stripped.
  rewrite strip_fenced by assumption.
  change (startswith "```" (fenced tag body)) with true. cbv iota.
  rewrite lines_of_fenced by exact Htag.
  unfold slice_1_m1. cbn [tl]. rewrite removelast_last.
  apply join_split_on_newline.
Qed.

(** C5.  The verification parser does raise on some replies.  It hands
    the decoder the stripped reply, without its first and last line if it
    starts with a code fence (a fenced block, possibly padded with ASCII
    whitespace, is decoded from its body).  When the decoder rejects that
    text with JSONDecodeError the parser returns the fixed default with
    no claims, confidence 0.5 and the parse-failure summary; when the
    text decodes, the decoded payload itself.  Its handler catches
    JSONDecodeError only: when the decoder raises ValueError (an integer
    literal over the digit limit) or RecursionError (too deep a nesting)
    the parser raises the same error, and these are the only replies on
    which it returns nothing. *)
Theorem parse_verification_response_outcomes (response_text : string) :
  (json_loads (fence_stripped response_text) = LoadsValueError ->
   parse_verification_response response_text = Raise ValueError) /\
  (json_loads (fence_stripped response_text) = LoadsRecursionError ->
   parse_verification_response response_text = Raise RecursionError) /\
  (json_loads (fence_stripped response_text) = LoadsJSONDecodeError ->
   parse_verification_response response_text =
   Ok (JObj (<[ "claims" := JArr [] ]>
            (<[ "confidence" := JNum (1 # 2) ]>
            (<[ "summary" := JStr "Could not parse verification response" ]>
             ∅))))) /\
  (forall payload,
      json_loads (fence_stripped response_text) = Loads payload ->
      parse_verification_response response_text = Ok payload) /\
  ((exists payload, parse_verification_response response_text = Ok payload) <->
   json_loads (fence_stripped response_text) <> LoadsValueError /\
   json_loads (fence_stripped response_text) <> LoadsRecursionError) /\
  (startswith "```" (strip response_text) = false ->
   fence_stripped response_text = strip response_text) /\
  (forall ws1 ws2 tag body,
      all_space ws1 = true -> all_space ws2 = true -> no_newline tag = true ->
      response_text = ws1 +:+ fenced tag body +:+ ws2 ->
      fence_stripped response_text = body).
Proof.
  unfold parse_verification_response.
  split; [|split; [|split; [|split; [|split; [|split]]]]].
  - intros ->. reflexivity.
  - intros ->. reflexivity.
  - intros ->. reflexivity.
  - intros payload ->. reflexivity.
  - destruct (json_loads _) as [payload| | |]; split.
    + intros _. split; discriminate.
    + intros _. now exists payload.
    + intros _. split; discriminate.
    + intros _. now eexists.
    + intros [payload H]. discriminate.
    + intros [H _]. now contradiction H.
    + intros [payload H]. discriminate.
    + intros [_ H]. now contradiction H.
  - intros H. unfold fence_stripped. now rewrite H.
  - intros ws1 ws2 tag body H1 H2 Htag ->. now apply fence_stripped_fenced.
Qed.

(** ** Retrieval *)

Lemma logs_issued_by {A} (c : M A) (env : Env) (evs : list SearchEvent) :
  logs c env evs -> issued_by c env = evs.
Proof.
  unfold logs, issued_by. intros ->. apply drop_app_length.
Qed.

Lemma vectorstore_search_run (q : string) (k : Z)
    (f : option (gmap string string)) (env : Env) :
  exists ev,
    logs (vectorstore_similarity_search q k f) env [ev] /\
    call_of ev = (q, k, f) /\
    fst (vectorstore_similarity_search q k f env) = ev_results ev.
Proof.
  unfold logs, vectorstore_similarity_search.
  destruct (chroma_search q k f (world env)) as [results w].
  eexists. simpl. split; [reflexivity|]. split; reflexivity.
Qed.

Lemma similarity_search_unfiltered (q : string) (k : Z) :
  similarity_search q k None = vectorstore_similarity_search q k None.
Proof. reflexivity. Qed.

Lemma similarity_search_filtered (q : string) (k : Z) (reg : string) :
  similarity_search q k (regulation_filter reg) =
  vectorstore_similarity_search q k (regulation_filter reg).
Proof.
  unfold similarity_search, regulation_filter.
  destruct (decide _) as [Hempty|_]; [|reflexivity].
  exfalso. eapply (map_non_empty_singleton (M := gmap string)). exact Hempty.
Qed.

Lemma search_each_run (q : string) (k : Z) (regs : list string)
    (results : list Document) (env : Env) :
  exists evs,
    logs (search_each q k regs results) env evs /\
    map call_of evs = map (fun reg => (q, k, regulation_filter reg)) regs /\
    fst (search_each q k regs results env) =
    results ++ concat (map ev_results evs).
Proof.
  revert results env. induction regs as [|reg others IH]; intros results env.
  - exists []. unfold logs. simpl. now rewrite !app_nil_r.
  - unfold logs. cbn [search_each]. unfold bind.
    rewrite similarity_search_filtered.
    destruct (vectorstore_search_run q k (regulation_filter reg) env)
      as (ev & Hlog & Hcall & Hres).
    unfold logs in Hlog.
    destruct (vectorstore_similarity_search q k (regulation_filter reg) env)
      as [reg_results env1].
    simpl in Hlog, Hres.
    destruct (IH (results ++ reg_results) env1) as (evs & Hlogs & Hcalls & Hout).
    exists (ev :: evs). unfold logs in *. split; [|split].
    + rewrite Hlogs, Hlog. now rewrite <- app_assoc.
    + simpl. now rewrite Hcall, Hcalls.
    + rewrite Hout, Hres. simpl. now rewrite <- app_assoc.
Qed.

Lemma single_search_run (q : string) (k : Z)
    (f : option (gmap string string)) (env : Env) :
  exists evs,
    logs (vectorstore_similarity_search q k f) env evs /\
    map call_of evs = [(q, k, f)] /\
    fst (vectorstore_similarity_search q k f env) =
    concat (map ev_results evs).
Proof.
  destruct (vectorstore_search_run q k f env) as (ev & Hlog & Hcall & Hres).
  exists [ev]. simpl. rewrite Hcall, app_nil_r. auto.
Qed.

(** The primary strategy issues exactly the planned calls and returns the
    concatenation of their answers. *)
Lemma primary_retrieval_run (q intent : string) (regs : list string) (env : Env) :
  exists evs,
    logs (primary_retrieval q intent regs) env evs /\
    map call_of evs = strategy_table q intent regs /\
    fst (primary_retrieval q intent regs env) = concat (map ev_results evs).
Proof.
  unfold primary_retrieval, strategy_table.
  destruct (String.eqb intent "LOOKUP" && Nat.eqb (length regs) 1).
  { rewrite similarity_search_filtered. apply single_search_run. }
  destruct (String.eqb intent "COMPARE" && Nat.leb 2 (length regs)).
  { destruct (search_each_run q (Z.max 5 (10 / Z.of_nat (length regs)))
                regs [] env) as (evs & H1 & H2 & H3).
    exists evs. auto. }
  destruct (String.eqb intent "COMPARE"); apply single_search_run.
Qed.

(** C3.  The primary strategy depends only on the intent and the detected
    regulations: LOOKUP with one regulation issues one search with k=5
    filtered to it; COMPARE with two or more issues one filtered search per
    regulation, each with k = max(5, 10 / count) = 5, and concatenates the
    answers in detection order; COMPARE with fewer than two issues one
    unfiltered search with k=10; every other case one unfiltered search
    with k=7. *)
Theorem primary_retrieval_strategy (q intent : string) (regs : list string)
    (env : Env) :
  let out := primary_retrieval q intent regs env in
  let issued := issued_by (primary_retrieval q intent regs) env in
  searches (snd out) = searches env ++ issued /\
  fst out = concat (map ev_results issued) /\
  (forall reg, intent = "LOOKUP" -> regs = [reg] ->
     map call_of issued = [(q, 5%Z, Some {[ "regulation" := reg ]})]) /\
  (intent = "COMPARE" -> 2 <= length regs ->
     map call_of issued =
       map (fun reg => (q, Z.max 5 (10 / Z.of_nat (length regs)),
                        Some {[ "regulation" := reg ]})) regs /\
     Z.max 5 (10 / Z.of_nat (length regs)) = 5%Z) /\
  (intent = "COMPARE" -> length regs < 2 ->
     map call_of issued = [(q, 10%Z, None)]) /\
  (intent <> "COMPARE" -> ~ (intent = "LOOKUP" /\ length regs = 1) ->
     map call_of issued = [(q, 7%Z, None)]).
Proof.
  intros out issued. subst out issued.
  destruct (primary_retrieval_run q intent regs env) as (evs & Hlog & Hcalls & Hres).
  rewrite (logs_issued_by _ _ _ Hlog), Hcalls.
  split; [exact Hlog|]. split; [exact Hres|].
  unfold strategy_table. split; [|split; [|split]].
  - intros reg -> ->. reflexivity.
  - intros -> Hlen. apply Nat.leb_le in Hlen as Hleb.
    replace (Nat.eqb (length regs) 1) with false
      by (symmetry; apply Nat.eqb_neq; lia).
    rewrite Hleb. simpl. split; [reflexivity|].
    apply Z.max_l. apply Z.lt_succ_r. apply Z.div_lt_upper_bound; lia.
  - intros -> Hlen.
    replace (Nat.leb 2 (length regs)) with false
      by (symmetry; apply Nat.leb_gt; lia). reflexivity.
  - intros Hc Hl. apply String.eqb_neq in Hc. rewrite Hc. simpl.
    destruct (String.eqb_spec intent "LOOKUP") as [->|_]; [|reflexivity].
    destruct (Nat.eqb_spec (length regs) 1) as [Hone|_]; [|reflexivity].
    exfalso. apply Hl. auto.
Qed.

Lemma retriever_agent_run (state : AgentState) (env : Env) :
  let rc := default 0%Z (retry_count state) in
  let primary :=
    primary_retrieval (query state) (query_type state)
      (target_regulations state) env in
  retriever_agent state env =
  if widens state (fst primary) then
    let widened :=
      vectorstore_similarity_search (query state) 10 None (snd primary) in
    (set_retry_count (rc + 1) (set_retrieved_docs (fst widened) state),
     snd widened)
  else
    (set_retry_count (rc + 1) (set_retrieved_docs (fst primary) state),
     snd primary).
Proof.
  intros rc primary. subst rc primary.
  unfold retriever_agent, widens, bind, ret.
  destruct (primary_retrieval _ _ _ env) as [results env1]. simpl.
  destruct ((0 <? default 0%Z (retry_count state))%Z && Nat.ltb (length results) 3);
    [|reflexivity].
  rewrite ?similarity_search_unfiltered.
  destruct (vectorstore_similarity_search _ _ _ env1). reflexivity.
Qed.

Lemma widens_spec (state : AgentState) (primary : list Document) :
  widens state primary = true <->
  (0 < default 0 (retry_count state))%Z /\ length primary < 3.
Proof.
  unfold widens. rewrite andb_true_iff, Z.ltb_lt, Nat.ltb_lt. reflexivity.
Qed.

(** C4.  After the primary strategy, the retriever makes at most one more
    call.  It makes one exactly when retry_count was positive at entry and
    the primary strategy returned fewer than three passages: an unfiltered
    search with k=10 whose answer replaces the primary passages.  On the
    first pass (retry_count 0 at entry) it makes none and keeps the
    primary passages. *)
Theorem retriever_agent_widening (state : AgentState) (env : Env) :
  let rc := default 0%Z (retry_count state) in
  let primary :=
    primary_retrieval (query state) (query_type state)
      (target_regulations state) env in
  let out := retriever_agent state env in
  let extra := drop (length (searches (snd primary))) (searches (snd out)) in
  searches (snd out) = searches (snd primary) ++ extra /\
  length extra <= 1 /\
  ((0 < rc)%Z /\ length (fst primary) < 3 ->
     exists ev, extra = [ev] /\
                call_of ev = (query state, 10%Z, None) /\
                retrieved_docs (fst out) = ev_results ev) /\
  (~ ((0 < rc)%Z /\ length (fst primary) < 3) ->
     extra = [] /\ retrieved_docs (fst out) = fst primary /\
     snd out = snd primary) /\
  (rc = 0%Z ->
     extra = [] /\ retrieved_docs (fst out) = fst primary)  /\
  retry_count (fst out) = Some (rc + 1)%Z.
Proof.
  intros rc primary out extra. subst out extra.
  rewrite retriever_agent_run. fold primary. fold rc.
  pose proof (widens_spec state (fst primary)) as Hw. fold rc in Hw.
  destruct (widens state (fst primary)).
  - destruct (vectorstore_search_run (query state) 10 None (snd primary))
      as (ev & Hlog & Hcall & Hres).
    unfold logs in Hlog. cbv zeta.
    destruct (vectorstore_similarity_search _ _ _ (snd primary))
      as [widened env2]. simpl in *.
    rewrite Hlog, drop_app_length.
    split; [reflexivity|]. split; [simpl; lia|].
    split; [intros _; exists ev; auto|].
    split; [intros Hn; exfalso; apply Hn, Hw; reflexivity|].
    split; [|reflexivity].
    intros Hz. exfalso. destruct (proj1 Hw eq_refl) as [Hpos _]. lia.
  - simpl. rewrite drop_all, app_nil_r.
    split; [reflexivity|]. split; [simpl; lia|].
    split; [intros Hy; apply Hw in Hy; discriminate|].
    repeat split; reflexivity.
Qed.

Lemma in_concat_results (doc : Document) (evs : list SearchEvent) :
  doc ∈ concat (map ev_results evs) ->
  exists ev, ev ∈ evs /\ doc ∈ ev_results ev.
Proof.
  rewrite list_elem_of_In, in_concat. intros (l & Hl & Hdoc).
  apply in_map_iff in Hl as (ev & <- & Hev).
  exists ev. now rewrite !list_elem_of_In.
Qed.

(** C10.  The passages the retriever stores do not depend on the passages
    already in the state: they are the answers of the searches of this
    invocation, either all of them concatenated or, when the search was
    widened, the answer of the last one; every stored passage was returned
    by one of this invocation's searches. *)
Theorem retriever_agent_replaces_docs (state : AgentState)
    (old : list Document) (env : Env) :
  let out := retriever_agent (set_retrieved_docs old state) env in
  let issued := issued_by (retriever_agent (set_retrieved_docs old state)) env in
  (forall old' : list Document,
      retrieved_docs (fst (retriever_agent (set_retrieved_docs old' state) env)) =
      retrieved_docs (fst out)) /\
  searches (snd out) = searches env ++ issued /\
  (retrieved_docs (fst out) = concat (map ev_results issued) \/
   exists ev, last issued = Some ev /\ retrieved_docs (fst out) = ev_results ev) /\
  (forall doc, doc ∈ retrieved_docs (fst out) ->
               exists ev, ev ∈ issued /\ doc ∈ ev_results ev).
Proof.
  intros out issued. subst out issued. unfold issued_by.
  split.
  { intros old'. rewrite !retriever_agent_run.
    cbn [set_retrieved_docs query query_type target_regulations retry_count].
    unfold widens. cbn [set_retrieved_docs retry_count].
    destruct (_ && _); reflexivity. }
  rewrite retriever_agent_run.
  cbn [set_retrieved_docs query query_type target_regulations retry_count].
  unfold widens. cbn [set_retrieved_docs retry_count].
  destruct (primary_retrieval_run (query state) (query_type state)
              (target_regulations state) env) as (evs & Hlog & _ & Hres).
  unfold logs in Hlog.
  destruct (primary_retrieval _ _ _ env) as [results env1].
  cbn [fst snd] in *.
  destruct (_ && _).
  - destruct (vectorstore_search_run (query state) 10 None env1)
      as (ev & Hlog2 & _ & Hres2).
    unfold logs in Hlog2. cbv zeta.
    destruct (vectorstore_similarity_search _ _ _ env1) as [widened env2].
    cbn [fst snd set_retry_count set_retrieved_docs retrieved_docs] in *.
    rewrite Hlog2, Hlog, <- app_assoc, drop_app_length.
    split; [reflexivity|]. split.
    + right. exists ev. split; [apply last_snoc | exact Hres2].
    + intros doc Hdoc. exists ev. split; [|now rewrite <- Hres2].
      apply elem_of_app. right. apply list_elem_of_here.
  - cbn [fst snd set_retry_count set_retrieved_docs retrieved_docs].
    rewrite Hlog, drop_app_length.
    split; [reflexivity|]. split; [now left|].
    intros doc Hdoc. apply in_concat_results. now rewrite <- Hres.
Qed.

(** ** The retry gate *)

Lemma Qltb_spec (a b : Q) : Qltb a b = true <-> (a < b)%Q.
Proof.
  unfold Qltb. rewrite negb_true_iff. split.
  - intros H. apply Qnot_le_lt. intros Hle.
    apply Qle_bool_iff in Hle. congruence.
  - intros H. destruct (Qle_bool b a) eqn:E; [|reflexivity].
    apply Qle_bool_iff in E. exfalso. exact (Qlt_not_le _ _ H E).
Qed.

Lemma should_retry_number (state : AgentState) (fields : gmap string json) (c : Q) :
  default (JObj ∅) (verification state) = JObj fields ->
  fields !! "confidence" = Some (JNum c) ->
  should_retry state =
  Ok (if Qltb c (7 # 10) && (default 0 (retry_count state) <=? 2)%Z
      then "retry" else "end").
Proof.
  intros Hv Hc. unfold should_retry, gate_confidence. rewrite Hv. simpl.
  rewrite Hc. simpl. now destruct (_ && _).
Qed.

Lemma should_retry_absent (state : AgentState) (fields : gmap string json) :
  default (JObj ∅) (verification state) = JObj fields ->
  fields !! "confidence" = None ->
  gate_confidence state = Ok (JNum 1) /\ should_retry state = Ok "end".
Proof.
  intros Hv Hc. unfold should_retry, gate_confidence. rewrite Hv. simpl.
  rewrite Hc. split; reflexivity.
Qed.

(** C1.  For a verification result that is a dict (an absent one counts
    as the empty dict): when its confidence is a number, the edge after
    the compliance checker leads back to the retriever exactly when
    confidence < 0.7 and retry_count <= 2, and to END otherwise; when it
    has no confidence, the gate reads 1.0 and the edge leads to END. *)
Theorem should_retry_gate (state : AgentState) (fields : gmap string json) :
  default (JObj ∅) (verification state) = JObj fields ->
  let rc := default 0%Z (retry_count state) in
  (forall c : Q,
      fields !! "confidence" = Some (JNum c) ->
      (should_retry state = Ok "retry" <-> (c < 7 # 10)%Q /\ (rc <= 2)%Z) /\
      (should_retry state = Ok "end" <-> ~ ((c < 7 # 10)%Q /\ (rc <= 2)%Z)) /\
      (next_node compliance_checker state = Ok retriever <->
       (c < 7 # 10)%Q /\ (rc <= 2)%Z) /\
      (next_node compliance_checker state = Ok END <->
       ~ ((c < 7 # 10)%Q /\ (rc <= 2)%Z))) /\
  (fields !! "confidence" = None ->
   gate_confidence state = Ok (JNum 1) /\
   should_retry state = Ok "end" /\
   next_node compliance_checker state = Ok END).
Proof.
  intros Hv rc. split.
  - intros c Hc. cbn [next_node].
    rewrite (should_retry_number state fields c Hv Hc). fold rc.
    pose proof (Qltb_spec c (7 # 10)) as Hq.
    pose proof (Z.leb_le rc 2) as Hz.
    destruct (Qltb c (7 # 10)); destruct (rc <=? 2)%Z; simpl;
      repeat split; try discriminate; try reflexivity;
      try (intros _; tauto); try (intros [? ?]; intuition discriminate);
      try (intros Hn; exfalso; apply Hn; tauto);
      intuition discriminate.
  - intros Hc. destruct (should_retry_absent state fields Hv Hc) as [Hg Hs].
    split; [exact Hg|]. split; [exact Hs|].
    cbn [next_node]. now rewrite Hs.
Qed.

Lemma package_response_missing_confidence (result : AgentState)
    (fields : gmap string json) :
  default (JObj ∅) (verification result) = JObj fields ->
  fields !! "confidence" = None ->
  exists response,
    package_response result = Ok response /\
    resp_confidence response = JNum 0.
Proof.
  intros Hv Hc. unfold package_response. rewrite Hv. simpl. rewrite Hc. simpl.
  eexists. split; reflexivity.
Qed.

Lemma ask_question_finished (q : string) (env : Env) (result : AgentState) :
  fst (fst (app_invoke (initial_state q) env)) = Finished result ->
  fst (ask_question q env) = package_response result.
Proof.
  unfold ask_question, bind, ret.
  destruct (app_invoke (initial_state q) env) as [[res trace] env'].
  simpl. intros ->. reflexivity.
Qed.

(** C9.  When a run ends in a state whose verification dict has no
    confidence key, the response of [ask_question] reports confidence 0,
    while the retry gate read the same absence as 1.0 and ended the
    run. *)
Theorem missing_confidence_defaults_differ (q : string) (env : Env)
    (result : AgentState) (fields : gmap string json) :
  fst (fst (app_invoke (initial_state q) env)) = Finished result ->
  default (JObj ∅) (verification result) = JObj fields ->
  fields !! "confidence" = None ->
  (exists response,
      fst (ask_question q env) = Ok response /\
      resp_confidence response = JNum 0) /\
  gate_confidence result = Ok (JNum 1) /\
  should_retry result = Ok "end".
Proof.
  intros Hrun Hv Hc. split.
  - rewrite (ask_question_finished q env result Hrun).
    exact (package_response_missing_confidence result fields Hv Hc).
  - exact (should_retry_absent result fields Hv Hc).
Qed.

(** ** The controller *)

Lemma visits_app (n : node) (a b : list (node * AgentState)) :
  visits n (a ++ b) = visits n a + visits n b.
Proof. unfold visits. now rewrite List.filter_app, length_app. Qed.

Lemma retriever_agent_fields (s : AgentState) (env : Env) :
  let s' := fst (retriever_agent s env) in
  query_type s' = query_type s /\
  target_regulations s' = target_regulations s /\
  retry_count s' = Some (default 0 (retry_count s) + 1)%Z.
Proof.
  cbv zeta. rewrite retriever_agent_run.
  destruct (widens _ _); [|repeat split].
  cbv zeta. destruct (vectorstore_similarity_search _ _ _ _). repeat split.
Qed.

Lemma synthesizer_agent_fields (s : AgentState) (env : Env) :
  let s' := fst (synthesizer_agent s env) in
  query_type s' = query_type s /\
  target_regulations s' = target_regulations s /\
  retry_count s' = retry_count s.
Proof.
  cbv zeta. unfold synthesizer_agent, bind, ret.
  destruct (llm_invoke _ _ env). repeat split.
Qed.

(** The compliance checker either returns the state with only its
    verification changed, or fails with an error of the decoder. *)
Lemma compliance_checker_agent_fields (s : AgentState) (env : Env) :
  match fst (compliance_checker_agent s env) with
  | Ok s' =>
      query_type s' = query_type s /\
      target_regulations s' = target_regulations s /\
      retry_count s' = retry_count s
  | Raise e => e = ValueError \/ e = RecursionError
  end.
Proof.
  unfold compliance_checker_agent, bind, ret.
  destruct (llm_invoke _ _ env) as [response env'].
  unfold parse_verification_response.
  destruct (json_loads _); simpl; auto.
Qed.

Lemma router_agent_fields (s : AgentState) (env : Env) :
  retry_count (fst (router_agent s env)) = retry_count s.
Proof.
  unfold router_agent, bind, ret. destruct (llm_invoke _ _ env). reflexivity.
Qed.

(** The conditional edge leads to the retriever only while
    retry_count <= 2, otherwise to END; it never raises the recursion
    error. *)
Lemma next_node_checker (s : AgentState) :
  match next_node compliance_checker s with
  | Ok n' => (n' = retriever /\ (default 0 (retry_count s) <= 2)%Z) \/ n' = END
  | Raise e => e <> GraphRecursionError
  end.
Proof.
  cbn [next_node]. unfold should_retry.
  destruct (gate_confidence s) as [c|e] eqn:Eg; simpl.
  - destruct (py_lt_float c (7 # 10)) as [low|e] eqn:El; simpl.
    + destruct low; simpl.
      * destruct (Z.leb_spec (default 0%Z (retry_count s)) 2); simpl; auto.
      * auto.
    + unfold py_lt_float in El. destruct c; congruence.
  - unfold gate_confidence, py_dict_get in Eg.
    destruct (default (JObj ∅) (verification s)); congruence.
Qed.

Lemma next_node_never_router (n : node) (s : AgentState) :
  next_node n s <> Ok router.
Proof.
  destruct n; try discriminate.
  pose proof (next_node_checker s) as H.
  destruct (next_node compliance_checker s) as [n'|e]; [|discriminate].
  destruct H as [[-> _] | ->]; discriminate.
Qed.

Lemma run_graph_END (steps : nat) (s : AgentState)
    (trace : list (node * AgentState)) (env : Env) :
  run_graph steps END s trace env = (Finished s, trace, env).
Proof. destruct steps; reflexivity. Qed.

Lemma same_routing_trans (s s' : AgentState) (added : list (node * AgentState)) :
  query_type s' = query_type s ->
  target_regulations s' = target_regulations s ->
  Forall (same_routing s') added -> Forall (same_routing s) added.
Proof.
  intros Hq Ht Hall. eapply Forall_impl; [exact Hall|].
  intros entry [H1 H2]. split; congruence.
Qed.

Ltac step_graph :=
  cbn [run_graph node_action]; unfold bind, ret; cbn beta iota.

Lemma run_graph_from_retriever (n : nat) :
  forall (s : AgentState) (trace : list (node * AgentState)) (env : Env)
         (steps : nat),
    1 <= n ->
    (3 - Z.of_nat n <= default 0 (retry_count s))%Z ->
    3 * n <= steps ->
    bounded_run s n trace (fst (run_graph steps retriever s trace env)).
Proof.
  induction n as [|n IH]; intros s trace env steps Hn Hrc Hsteps; [lia|].
  destruct steps as [|[|[|steps]]]; try lia.
  step_graph.
  pose proof (retriever_agent_fields s env) as (Hq1 & Ht1 & Hr1).
  destruct (retriever_agent s env) as [s1 env1]. cbn [fst] in Hq1, Ht1, Hr1.
  change (next_node retriever s1) with (Ok synthesizer). step_graph.
  pose proof (synthesizer_agent_fields s1 env1) as (Hq2 & Ht2 & Hr2).
  destruct (synthesizer_agent s1 env1) as [s2 env2]. cbn [fst] in Hq2, Ht2, Hr2.
  change (next_node synthesizer s2) with (Ok compliance_checker). step_graph.
  assert (Hs1 : same_routing s (retriever, s1)) by (split; assumption).
  assert (Hs2 : same_routing s (synthesizer, s2))
    by (split; simpl; congruence).
  pose proof (compliance_checker_agent_fields s2 env2) as Hcc.
  destruct (compliance_checker_agent s2 env2) as [[s3|e] env3];
    cbn [fst] in Hcc; cbn beta iota.
  2:{ cbn [fst snd].
      split; [destruct Hcc as [-> | ->]; discriminate|].
      split; [discriminate|].
      exists [(retriever, s1); (synthesizer, s2)].
      split; [now rewrite <- app_assoc|].
      split; [unfold visits; simpl; lia|].
      split; [reflexivity|].
      split; [simpl; lia|].
      constructor; [exact Hs1|]. constructor; [exact Hs2 | constructor]. }
  destruct Hcc as (Hq3 & Ht3 & Hr3).
  assert (Hs3 : same_routing s (compliance_checker, s3))
    by (split; simpl; congruence).
  assert (Htrace : ((trace ++ [(retriever, s1)]) ++ [(synthesizer, s2)])
                     ++ [(compliance_checker, s3)] =
                   trace ++ [(retriever, s1); (synthesizer, s2);
                             (compliance_checker, s3)])
    by now rewrite <- !app_assoc.
  rewrite Htrace.
  assert (Hpass : Forall (same_routing s)
                    [(retriever, s1); (synthesizer, s2);
                     (compliance_checker, s3)]).
  { constructor; [exact Hs1|]. constructor; [exact Hs2|].
    constructor; [exact Hs3|]. constructor. }
  pose proof (next_node_checker s3) as Hnext.
  destruct (next_node compliance_checker s3) as [n'|e].
  - destruct Hnext as [[-> Hle] | ->].
    + assert (Hrc3 : default 0%Z (retry_count s3) =
                     (default 0 (retry_count s) + 1)%Z)
        by (rewrite Hr3, Hr2, Hr1; reflexivity).
      assert (Hn1 : 1 <= n) by lia.
      destruct (IH s3 (trace ++ [(retriever, s1); (synthesizer, s2);
                                 (compliance_checker, s3)])
                  env3 steps Hn1 ltac:(lia) ltac:(lia))
        as (Hres & Hfin & added & Hadd & Hv & Hr & Hlen & Hall).
      assert (Hq31 : query_type s3 = query_type s) by congruence.
      assert (Ht31 : target_regulations s3 = target_regulations s) by congruence.
      split; [exact Hres|]. split.
      { intros f Hf. destruct (Hfin f Hf) as [Ha Hb]. split; simpl in *; congruence. }
      exists ([(retriever, s1); (synthesizer, s2); (compliance_checker, s3)]
                ++ added).
      split; [now rewrite Hadd, <- app_assoc|].
      rewrite !visits_app, length_app.
      split; [unfold visits at 1; simpl; lia|].
      split; [unfold visits at 1; simpl; lia|].
      split; [simpl; lia|].
      apply Forall_app. split.
      * exact Hpass.
      * now apply (same_routing_trans s s3).
    + rewrite run_graph_END. cbn [fst snd].
      split; [discriminate|]. split.
      { intros f [= <-]. split; simpl; congruence. }
      exists [(retriever, s1); (synthesizer, s2); (compliance_checker, s3)].
      split; [reflexivity|].
      split; [unfold visits; simpl; lia|].
      split; [reflexivity|].
      split; [simpl; lia|].
      exact Hpass.
  - cbn beta iota. cbn [fst snd].
    split; [intros [= He]; exact (Hnext He)|]. split; [discriminate|].
    exists [(retriever, s1); (synthesizer, s2); (compliance_checker, s3)].
    split; [reflexivity|].
    split; [unfold visits; simpl; lia|].
    split; [reflexivity|].
    split; [simpl; lia|].
    exact Hpass.
Qed.

Lemma run_graph_router (steps : nat) (s : AgentState)
    (trace : list (node * AgentState)) (env : Env) :
  run_graph (S steps) router s trace env =
  bind (router_agent s)
       (fun s' => run_graph steps retriever s' (trace ++ [(router, s')]))
       env.
Proof.
  cbn [run_graph node_action]. unfold bind, ret.
  destruct (router_agent s env) as [s' env']. reflexivity.
Qed.

(** A run of the compiled graph on a fresh state: the router, then at
    most three passes. *)
Lemma app_invoke_run (q : string) (env : Env) :
  let routed := router_agent (initial_state q) env in
  let ran := fst (app_invoke (initial_state q) env) in
  fst ran <> Raised GraphRecursionError /\
  (forall f, fst ran = Finished f -> same_routing (fst routed) (END, f)) /\
  exists added,
    snd ran = (router, fst routed) :: added /\
    visits retriever added <= 3 /\
    visits router added = 0 /\
    length added <= 9 /\
    Forall (same_routing (fst routed)) added.
Proof.
  cbv zeta. unfold app_invoke, recursion_limit, entry_point.
  rewrite (run_graph_router 24). unfold bind.
  pose proof (router_agent_fields (initial_state q) env) as Hr0.
  destruct (router_agent (initial_state q) env) as [s0 env0].
  cbn [fst] in *.
  assert (Hrc : (3 - Z.of_nat 3 <= default 0 (retry_count s0))%Z)
    by (rewrite Hr0; simpl; lia).
  destruct (run_graph_from_retriever 3 s0 ([] ++ [(router, s0)]) env0 24
              ltac:(lia) Hrc ltac:(lia))
    as (Hres & Hfin & added & Hadd & Hv & Hr & Hlen & Hall).
  split; [exact Hres|]. split; [exact Hfin|].
  exists added. split; [exact Hadd|]. split; [exact Hv|].
  split; [exact Hr|]. split; [lia | exact Hall].
Qed.

(** C2.  A run on a fresh state always ends: it never exhausts the step
    budget of the graph, it enters the retriever at most three times and
    runs at most ten nodes, whatever the services answer; every entry of
    the retriever increments retry_count by exactly one. *)
Theorem pipeline_at_most_three_passes (q : string) (env : Env) :
  let ran := fst (app_invoke (initial_state q) env) in
  fst ran <> Raised GraphRecursionError /\
  visits retriever (snd ran) <= 3 /\
  length (snd ran) <= 10 /\
  (forall (s : AgentState) (e : Env),
      retry_count (fst (retriever_agent s e)) =
      Some (default 0 (retry_count s) + 1)%Z).
Proof.
  cbv zeta.
  destruct (app_invoke_run q env)
    as (Hres & _ & added & Hadd & Hv & _ & Hlen & _).
  split; [exact Hres|]. rewrite Hadd.
  split; [|split].
  - change ((router, fst (router_agent (initial_state q) env)) :: added)
      with ([(router, fst (router_agent (initial_state q) env))] ++ added).
    rewrite visits_app. unfold visits at 1. simpl. exact Hv.
  - simpl. lia.
  - intros s e. apply retriever_agent_fields.
Qed.

(** C8.  In a run on a fresh state the router is the first node and runs
    exactly once; no edge of the graph leads to it; every state produced
    afterwards, on every pass, and the final state carry the query type
    and the target regulations the router set. *)
Theorem router_runs_once_routing_frozen (q : string) (env : Env) :
  let routed := fst (router_agent (initial_state q) env) in
  let ran := fst (app_invoke (initial_state q) env) in
  visits router (snd ran) = 1 /\
  head (snd ran) = Some (router, routed) /\
  (forall (n : node) (s : AgentState), next_node n s <> Ok router) /\
  Forall (fun entry =>
            query_type (snd entry) = query_type routed /\
            target_regulations (snd entry) = target_regulations routed)
         (snd ran) /\
  (forall final, fst ran = Finished final ->
                 query_type final = query_type routed /\
                 target_regulations final = target_regulations routed).
Proof.
  cbv zeta.
  destruct (app_invoke_run q env)
    as (_ & Hfin & added & Hadd & _ & Hr & _ & Hall).
  rewrite Hadd. split; [|split; [|split; [|split]]].
  - change ((router, fst (router_agent (initial_state q) env)) :: added)
      with ([(router, fst (router_agent (initial_state q) env))] ++ added).
    rewrite visits_app, Hr. reflexivity.
  - reflexivity.
  - exact next_node_never_router.
  - constructor; [split; reflexivity | exact Hall].
  - intros final Hf. exact (Hfin final Hf).
Qed.

(** ** Runs as sequences of passes *)

(** Induction over the passes of a run started at the retriever: [I] holds
    whenever the retriever is entered, [Post] after every complete pass,
    [Abort] when the compliance checker fails.  The run ends by the gate
    on the state of its last complete pass, or inside the compliance
    checker by an error of the decoder. *)
Lemma run_graph_passes
    (I Post : AgentState -> list (node * AgentState) -> Env -> Prop)
    (Abort : pyexn -> AgentState -> list (node * AgentState) -> Env -> Prop) :
  (forall s trace env s1 e1 s2 e2 s3 e3,
      I s trace env ->
      retriever_agent s env = (s1, e1) ->
      synthesizer_agent s1 e1 = (s2, e2) ->
      compliance_checker_agent s2 e2 = (Ok s3, e3) ->
      Post s3 (trace ++ [(retriever, s1); (synthesizer, s2);
                         (compliance_checker, s3)]) e3 /\
      (next_node compliance_checker s3 = Ok retriever ->
       I s3 (trace ++ [(retriever, s1); (synthesizer, s2);
                       (compliance_checker, s3)]) e3)) ->
  (forall s trace env s1 e1 s2 e2 e e3,
      I s trace env ->
      retriever_agent s env = (s1, e1) ->
      synthesizer_agent s1 e1 = (s2, e2) ->
      compliance_checker_agent s2 e2 = (Raise e, e3) ->
      Abort e s2 (trace ++ [(retriever, s1); (synthesizer, s2)]) e3) ->
  forall (n : nat) (s : AgentState) (trace : list (node * AgentState))
         (env : Env) (steps : nat),
    1 <= n ->
    (3 - Z.of_nat n <= default 0 (retry_count s))%Z ->
    3 * n <= steps ->
    I s trace env ->
    (exists s3,
        Post s3 (snd (fst (run_graph steps retriever s trace env)))
             (snd (run_graph steps retriever s trace env)) /\
        ends_by_gate s3 (fst (fst (run_graph steps retriever s trace env)))) \/
    (exists s2 e,
        Abort e s2 (snd (fst (run_graph steps retriever s trace env)))
              (snd (run_graph steps retriever s trace env)) /\
        fst (fst (run_graph steps retriever s trace env)) = Raised e /\
        decoder_error e).
Proof.
  intros Hstep Habort. induction n as [|n IH];
    intros s trace env steps Hn Hrc Hsteps HI; [lia|].
  destruct steps as [|[|[|steps]]]; try lia.
  step_graph.
  pose proof (retriever_agent_fields s env) as (_ & _ & Hr1).
  destruct (retriever_agent s env) as [s1 env1] eqn:E1. cbn [fst] in Hr1.
  change (next_node retriever s1) with (Ok synthesizer). step_graph.
  pose proof (synthesizer_agent_fields s1 env1) as (_ & _ & Hr2).
  destruct (synthesizer_agent s1 env1) as [s2 env2] eqn:E2. cbn [fst] in Hr2.
  change (next_node synthesizer s2) with (Ok compliance_checker). step_graph.
  pose proof (compliance_checker_agent_fields s2 env2) as Hcc.
  destruct (compliance_checker_agent s2 env2) as [[s3|e] env3] eqn:E3;
    cbn [fst] in Hcc; cbn beta iota.
  2:{ right. cbn [fst snd]. exists s2, e.
      replace ((trace ++ [(retriever, s1)]) ++ [(synthesizer, s2)])
        with (trace ++ [(retriever, s1); (synthesizer, s2)])
        by now rewrite <- app_assoc.
      split; [exact (Habort s trace env s1 env1 s2 env2 e env3 HI E1 E2 E3)|].
      split; [reflexivity | exact Hcc]. }
  destruct Hcc as (_ & _ & Hr3).
  replace (((trace ++ [(retriever, s1)]) ++ [(synthesizer, s2)])
             ++ [(compliance_checker, s3)])
    with (trace ++ [(retriever, s1); (synthesizer, s2);
                    (compliance_checker, s3)])
    by now rewrite <- !app_assoc.
  destruct (Hstep s trace env s1 env1 s2 env2 s3 env3 HI E1 E2 E3)
    as [Hpost Hnext].
  pose proof (next_node_checker s3) as Hchk.
  destruct (next_node compliance_checker s3) as [n'|e] eqn:En.
  - destruct Hchk as [[-> Hle] | ->].
    + assert (Hrc3 : default 0%Z (retry_count s3) =
                     (default 0 (retry_count s) + 1)%Z)
        by (rewrite Hr3, Hr2, Hr1; reflexivity).
      apply (IH s3 _ env3 steps); [lia | lia | lia | now apply Hnext].
    + rewrite run_graph_END. cbn [fst snd]. left. exists s3.
      unfold ends_by_gate. rewrite En. split; [exact Hpost | reflexivity].
  - cbn beta iota. cbn [fst snd]. left. exists s3.
    unfold ends_by_gate. rewrite En. split; [exact Hpost | reflexivity].
Qed.

(** The same for a whole run on a fresh state: [I] holds after the
    router. *)
Lemma app_invoke_passes
    (I Post : AgentState -> list (node * AgentState) -> Env -> Prop)
    (Abort : pyexn -> AgentState -> list (node * AgentState) -> Env -> Prop)
    (q : string) (env : Env) :
  (forall s0 e0,
      router_agent (initial_state q) env = (s0, e0) ->
      I s0 [(router, s0)] e0) ->
  (forall s trace env s1 e1 s2 e2 s3 e3,
      I s trace env ->
      retriever_agent s env = (s1, e1) ->
      synthesizer_agent s1 e1 = (s2, e2) ->
      compliance_checker_agent s2 e2 = (Ok s3, e3) ->
      Post s3 (trace ++ [(retriever, s1); (synthesizer, s2);
                         (compliance_checker, s3)]) e3 /\
      (next_node compliance_checker s3 = Ok retriever ->
       I s3 (trace ++ [(retriever, s1); (synthesizer, s2);
                       (compliance_checker, s3)]) e3)) ->
  (forall s trace env s1 e1 s2 e2 e e3,
      I s trace env ->
      retriever_agent s env = (s1, e1) ->
      synthesizer_agent s1 e1 = (s2, e2) ->
      compliance_checker_agent s2 e2 = (Raise e, e3) ->
      Abort e s2 (trace ++ [(retriever, s1); (synthesizer, s2)]) e3) ->
  (exists s3,
      Post s3 (snd (fst (app_invoke (initial_state q) env)))
           (snd (app_invoke (initial_state q) env)) /\
      ends_by_gate s3 (fst (fst (app_invoke (initial_state q) env)))) \/
  (exists s2 e,
      Abort e s2 (snd (fst (app_invoke (initial_state q) env)))
            (snd (app_invoke (initial_state q) env)) /\
      fst (fst (app_invoke (initial_state q) env)) = Raised e /\
      decoder_error e).
Proof.
  intros Hinit Hstep Habort. unfold app_invoke, recursion_limit, entry_point.
  rewrite (run_graph_router 24). unfold bind.
  pose proof (router_agent_fields (initial_state q) env) as Hr0.
  destruct (router_agent (initial_state q) env) as [s0 env0] eqn:E0.
  cbn [fst] in Hr0.
  apply (run_graph_passes I Post Abort Hstep Habort 3 s0
           ([] ++ [(router, s0)]) env0 24);
    [lia | rewrite Hr0; simpl; lia | lia | now apply Hinit].
Qed.





(** How a run that ends by the gate ends, read off the state of the last
    pass. *)
Lemma gate_outcome (s3 : AgentState) (res : run_result) :
  ends_by_gate s3 res ->
  (forall f, res = Finished f ->
             f = s3 /\ next_node compliance_checker s3 = Ok END) /\
  (forall e, res = Raised e -> next_node compliance_checker s3 = Raise e).
Proof.
  unfold ends_by_gate.
  destruct (next_node compliance_checker s3) as [[]|e]; try contradiction;
    intros ->; split; intros x Hx; try discriminate.
  - injection Hx as <-. auto.
  - now injection Hx as <-.
Qed.

Lemma half_pass_retry_count (s : AgentState) (env : Env)
    (s1 s2 : AgentState) (e1 e2 : Env) :
  retriever_agent s env = (s1, e1) ->
  synthesizer_agent s1 e1 = (s2, e2) ->
  retry_count s2 = Some (default 0 (retry_count s) + 1)%Z.
Proof.
  intros E1 E2.
  pose proof (retriever_agent_fields s env) as (_ & _ & H1).
  pose proof (synthesizer_agent_fields s1 e1) as (_ & _ & H2).
  rewrite E1 in H1. rewrite E2 in H2. simpl in *. congruence.
Qed.

Lemma pass_retry_count (s : AgentState) (env : Env)
    (s1 s2 s3 : AgentState) (e1 e2 e3 : Env) :
  retriever_agent s env = (s1, e1) ->
  synthesizer_agent s1 e1 = (s2, e2) ->
  compliance_checker_agent s2 e2 = (Ok s3, e3) ->
  retry_count s3 = Some (default 0 (retry_count s) + 1)%Z.
Proof.
  intros E1 E2 E3.
  pose proof (half_pass_retry_count s env s1 s2 e1 e2 E1 E2) as H2.
  pose proof (compliance_checker_agent_fields s2 e2) as H3.
  rewrite E3 in H3. simpl in H3. destruct H3 as (_ & _ & H3). congruence.
Qed.


(** ** What each node writes *)

Lemma router_agent_frame (s : AgentState) (env : Env) :
  exists reply w,
    router_agent s env =
    (set_target_regulations (detect_regulations (query s))
       (set_query_type (normalized_label reply) s),
     {| world := w; searches := searches env |}).
Proof.
  unfold router_agent, bind, ret, llm_invoke.
  destruct (chat_invoke _ _ (world env)) as [reply w]. now exists reply, w.
Qed.

Lemma retriever_agent_frame (s : AgentState) (env : Env) :
  exists docs,
    fst (retriever_agent s env) =
    set_retry_count (default 0 (retry_count s) + 1)%Z
      (set_retrieved_docs docs s).
Proof.
  rewrite retriever_agent_run. destruct (widens _ _); cbv zeta.
  - destruct (vectorstore_similarity_search _ _ _ _) as [docs e].
    now exists docs.
  - eexists. reflexivity.
Qed.

Lemma synthesizer_agent_frame (s : AgentState) (env : Env) :
  exists reply w,
    synthesizer_agent s env =
    (set_answer reply s, {| world := w; searches := searches env |}).
Proof.
  unfold synthesizer_agent, bind, ret, llm_invoke.
  destruct (chat_invoke _ _ (world env)) as [reply w]. now exists reply, w.
Qed.

(** The compliance checker makes no search; it stores the payload the
    decoder returned or the parse-failure default, or fails with the
    error the decoder raised. *)
Lemma compliance_checker_agent_frame (s : AgentState) (env : Env) :
  searches (snd (compliance_checker_agent s env)) = searches env /\
  match fst (compliance_checker_agent s env) with
  | Ok s' =>
      exists v,
        s' = set_verification v s /\
        (v = parse_failure_default \/ exists text, json_loads text = Loads v)
  | Raise e =>
      exists text,
        (e = ValueError /\ json_loads text = LoadsValueError) \/
        (e = RecursionError /\ json_loads text = LoadsRecursionError)
  end.
Proof.
  unfold compliance_checker_agent, bind, ret, llm_invoke.
  destruct (chat_invoke _ _ (world env)) as [reply w].
  unfold parse_verification_response.
  destruct (json_loads (fence_stripped reply)) as [v| | |] eqn:E;
    cbn [fst snd obind searches]; (split; [reflexivity|]).
  - exists v. split; [reflexivity|]. right. now exists (fence_stripped reply).
  - exists parse_failure_default. split; [reflexivity | now left].
  - exists (fence_stripped reply). left. now split.
  - exists (fence_stripped reply). right. now split.
Qed.

Lemma compliance_checker_agent_ok (s s3 : AgentState) (env e3 : Env) :
  compliance_checker_agent s env = (Ok s3, e3) ->
  searches e3 = searches env /\
  exists v,
    s3 = set_verification v s /\
    (v = parse_failure_default \/ exists text, json_loads text = Loads v).
Proof.
  intros E. pose proof (compliance_checker_agent_frame s env) as [Hs Hv].
  rewrite E in Hs, Hv. cbn [fst snd] in Hs, Hv. now split.
Qed.

Lemma compliance_checker_agent_raise (s : AgentState) (env e3 : Env)
    (e : pyexn) :
  compliance_checker_agent s env = (Raise e, e3) ->
  searches e3 = searches env /\
  exists text,
    (e = ValueError /\ json_loads text = LoadsValueError) \/
    (e = RecursionError /\ json_loads text = LoadsRecursionError).
Proof.
  intros E. pose proof (compliance_checker_agent_frame s env) as [Hs Hv].
  rewrite E in Hs, Hv. cbn [fst snd] in Hs, Hv. now split.
Qed.

(** A gate that lets the run continue or end has read a dict. *)
Lemma next_node_ok_dict (s : AgentState) (n' : node) :
  next_node compliance_checker s = Ok n' ->
  exists fields, default (JObj ∅) (verification s) = JObj fields.
Proof.
  cbn [next_node]. unfold should_retry, gate_confidence, py_dict_get.
  destruct (default (JObj ∅) (verification s)); try discriminate.
  intros _. now eexists.
Qed.

Lemma normalized_label_valid (reply : string) :
  normalized_label reply ∈ valid_types.
Proof.
  unfold normalized_label.
  destruct (decide (upper (strip reply) ∉ valid_types)) as [_ | Hy].
  - unfold valid_types. set_solver.
  - now apply dec_stable.
Qed.

(** X2.  A response of [ask_question] is assembled from the last pass
    only: its answer is the reply stored by the last synthesizer run, its
    sources are the passages stored by the last retriever run, its
    verification is the dict stored by the last compliance check, and its
    confidence is that dict's confidence or 0; its query type is one of
    the four intents. *)
Theorem ask_question_response_from_last_pass (q : string) (env : Env) :
  match fst (ask_question q env) with
  | Ok response =>
      exists earlier s1 s2 s3 fields,
        snd (fst (app_invoke (initial_state q) env)) =
          earlier ++ [(retriever, s1); (synthesizer, s2);
                      (compliance_checker, s3)] /\
        resp_sources response = format_sources (retrieved_docs s1) /\
        resp_answer response = answer s2 /\
        verification s3 = Some (JObj fields) /\
        resp_verification response = JObj fields /\
        resp_confidence response = default (JNum 0) (fields !! "confidence") /\
        resp_query_type response ∈ valid_types
  | Raise _ => True
  end.
Proof.
  destruct (app_invoke_passes
              (fun s _ _ => query_type s ∈ valid_types)
              (fun s3 trace _ =>
                 exists earlier s1 s2 v,
                   trace = earlier ++ [(retriever, s1); (synthesizer, s2);
                                       (compliance_checker, s3)] /\
                   retrieved_docs s3 = retrieved_docs s1 /\
                   answer s3 = answer s2 /\
                   verification s3 = Some v /\
                   query_type s3 ∈ valid_types)
              (fun _ _ _ _ => True)
              q env)
    as [(s3 & (earlier & s1 & s2 & v & Htrace & Hdocs & Hans & Hver & Hqt)
            & Hend)
       | (s2 & e & _ & Hres & _)].
  - intros s0 e0 E0.
    destruct (router_agent_frame (initial_state q) env) as (reply & w & Hr).
    rewrite Hr in E0. injection E0 as <- _. simpl.
    apply normalized_label_valid.
  - intros s trace env' s1 e1 s2 e2 s3 e3 HI E1 E2 E3.
    destruct (retriever_agent_frame s env') as (docs & H1).
    destruct (synthesizer_agent_frame s1 e1) as (reply & w2 & H2).
    destruct (compliance_checker_agent_ok s2 s3 e2 e3 E3) as (_ & v & H3 & _).
    rewrite E1 in H1. rewrite E2 in H2. simpl in H1.
    injection H2 as -> _. subst s3 s1.
    assert (Hqt : query_type
                    (set_verification v
                       (set_answer reply
                          (set_retry_count (default 0 (retry_count s) + 1)%Z
                             (set_retrieved_docs docs s)))) ∈ valid_types)
      by exact HI.
    split; [|intros _; exact Hqt].
    eexists trace, _, _, v. repeat split; try reflexivity. exact Hqt.
  - intros; exact I.
  - unfold ask_question, bind, ret.
    destruct (app_invoke (initial_state q) env) as [[res trace] env'].
    cbn [fst snd] in *. destruct res as [final|e]; [|exact I].
    destruct (proj1 (gate_outcome s3 _ Hend) final eq_refl) as [-> Hgate].
    destruct (next_node_ok_dict s3 END Hgate) as (fields & Hfields).
    rewrite Hver in Hfields. simpl in Hfields. subst v.
    unfold package_response. rewrite Hver. simpl.
    exists earlier, s1, s2, s3, fields.
    rewrite Hdocs, Hans. repeat split; try reflexivity; assumption.
  - unfold ask_question, bind, ret.
    destruct (app_invoke (initial_state q) env) as [[res trace] env'].
    cbn [fst snd] in *. rewrite Hres. exact I.
Qed.

(** ** Errors of a run *)

Lemma parse_failure_default_confidence :
  exists fields,
    parse_failure_default = JObj fields /\
    fields !! "confidence" = Some (JNum (1 # 2)).
Proof. eexists. split; [reflexivity | vm_compute; reflexivity]. Qed.





(** ** The loop and its cost *)





Lemma strategy_table_planned (q intent : string) (regs : list string) :
  Forall (planned_call q regs) (strategy_table q intent regs) /\
  length (strategy_table q intent regs) <= Nat.max 1 (length regs).
Proof.
  unfold strategy_table.
  destruct (String.eqb intent "LOOKUP" && Nat.eqb (length regs) 1) eqn:E1.
  { apply andb_true_iff in E1 as [_ Hlen]. apply Nat.eqb_eq in Hlen.
    destruct regs as [|reg [|? ?]]; try discriminate. simpl. split; [|lia].
    constructor; [|constructor]. split; [reflexivity|]. right.
    exists reg. split; [apply list_elem_of_here | auto]. }
  destruct (String.eqb intent "COMPARE" && Nat.leb 2 (length regs)) eqn:E2.
  { apply andb_true_iff in E2 as [_ Hlen]. apply Nat.leb_le in Hlen.
    assert (Hk : Z.max 5 (10 / Z.of_nat (length regs)) = 5%Z).
    { apply Z.max_l. apply Z.lt_succ_r. apply Z.div_lt_upper_bound; lia. }
    rewrite Hk. split; [|rewrite length_map; lia].
    apply Forall_map. apply Forall_forall. intros reg Hin.
    split; [reflexivity|]. right. exists reg. auto. }
  destruct (String.eqb intent "COMPARE"); simpl; (split; [|lia]);
    (constructor; [|constructor]); (split; [reflexivity|]); left; auto.
Qed.

Lemma planned_events (q : string) (regs : list string)
    (calls : list (string * Z * option (gmap string string)))
    (evs : list SearchEvent) :
  map call_of evs = calls ->
  Forall (planned_call q regs) calls ->
  Forall (fun ev => planned_call q regs (call_of ev)) evs.
Proof.
  intros <-. induction evs as [|ev evs IH]; simpl; intros H; [constructor|].
  inversion H; subst. constructor; auto.
Qed.

(** The calls one retriever run adds to the log. *)
Lemma retriever_agent_searches (s : AgentState) (env : Env) :
  exists evs,
    searches (snd (retriever_agent s env)) = searches env ++ evs /\
    Forall (fun ev => planned_call (query s) (target_regulations s) (call_of ev))
           evs /\
    length evs <= Nat.max 1 (length (target_regulations s)) +
                  (if (0 <? default 0 (retry_count s))%Z then 1 else 0).
Proof.
  rewrite retriever_agent_run.
  destruct (primary_retrieval_run (query s) (query_type s)
              (target_regulations s) env) as (evs & Hlog & Hcalls & _).
  destruct (strategy_table_planned (query s) (query_type s)
              (target_regulations s)) as [Hplanned Hlen].
  pose proof (planned_events _ _ _ evs Hcalls Hplanned) as Hevs.
  assert (Hlen' : length evs <= Nat.max 1 (length (target_regulations s))).
  { rewrite <- (length_map call_of evs), Hcalls. exact Hlen. }
  unfold logs in Hlog.
  destruct (widens s _) eqn:Ew; cbv zeta.
  - apply widens_spec in Ew as [Hpos _]. apply Z.ltb_lt in Hpos. rewrite Hpos.
    destruct (vectorstore_search_run (query s) 10 None
                (snd (primary_retrieval (query s) (query_type s)
                        (target_regulations s) env)))
      as (ev & Hlog2 & Hcall & _).
    unfold logs in Hlog2.
    destruct (vectorstore_similarity_search _ _ _ _) as [widened env2].
    cbn [fst snd] in *. exists (evs ++ [ev]).
    rewrite Hlog2, Hlog, <- app_assoc. split; [reflexivity|]. split.
    + apply Forall_app. split; [exact Hevs|].
      constructor; [|constructor]. rewrite Hcall.
      split; [reflexivity|]. left. auto.
    + rewrite length_app. simpl. lia.
  - cbn [fst snd]. exists evs. split; [exact Hlog|]. split; [exact Hevs|].
    destruct (0 <? default 0 (retry_count s))%Z; lia.
Qed.

Lemma detect_regulations_length (q : string) :
  length (detect_regulations q) <= 5.
Proof.
  rewrite detect_regulations_filter.
  pose proof (map_filter_sublist fst (mentions (lower q)) patterns) as H.
  apply sublist_length in H. exact H.
Qed.

(** The search log after the retriever and the synthesizer of pass k+1,
    given the log when the pass started. *)
Lemma half_pass_searches (q : string) (env0 : Env) (k : nat)
    (added : list SearchEvent) (s : AgentState) (env : Env)
    (s1 s2 : AgentState) (e1 e2 : Env) :
  query s = q ->
  target_regulations s = detect_regulations q ->
  retry_count s = Some (Z.of_nat k) ->
  searches env = searches env0 ++ added ->
  Forall (fun ev => planned_call q (detect_regulations q) (call_of ev)) added ->
  length added <= k * Nat.max 1 (length (detect_regulations q)) + (k - 1) ->
  retriever_agent s env = (s1, e1) ->
  synthesizer_agent s1 e1 = (s2, e2) ->
  exists docs reply,
    s2 = set_answer reply
           (set_retry_count (Z.of_nat k + 1)%Z (set_retrieved_docs docs s)) /\
    exists added',
      searches e2 = searches env0 ++ added' /\
      Forall (fun ev => planned_call q (detect_regulations q) (call_of ev))
             added' /\
      length added' <=
        S k * Nat.max 1 (length (detect_regulations q)) + (S k - 1).
Proof.
  intros Hq Hregs Hrc Hlog Hall Hlen E1 E2.
  destruct (retriever_agent_searches s env) as (evs & Hlog1 & Hevs & Hlen1).
  destruct (retriever_agent_frame s env) as (docs & H1).
  destruct (synthesizer_agent_frame s1 e1) as (reply & w2 & H2).
  rewrite E1 in H1, Hlog1. rewrite E2 in H2. cbn [fst snd] in H1, Hlog1.
  injection H2 as -> ->. subst s1. cbn [searches].
  rewrite Hq, Hregs in Hevs. rewrite Hregs, Hrc in Hlen1. simpl in Hlen1.
  rewrite Hrc. simpl.
  exists docs, reply. split; [reflexivity|].
  exists (added ++ evs). rewrite Hlog1, Hlog, <- app_assoc.
  split; [reflexivity|]. split; [now apply Forall_app|].
  rewrite length_app.
  destruct k as [|k'].
  - simpl in Hlen1. simpl in Hlen. simpl. lia.
  - replace (0 <? Z.of_nat (S k'))%Z with true in Hlen1
      by (symmetry; apply Z.ltb_lt; lia).
    simpl in *. lia.
Qed.

(** X5.  In a run on a fresh state every vector-index call is made for the
    user's query as given, either unfiltered with k=7 or k=10 or filtered
    to a regulation detected in the query with k=5; the run makes at most
    3 * max(1, detected regulations) + 2 such calls, hence at most 17. *)
Theorem run_search_budget (q : string) (env : Env) :
  exists added,
    searches (snd (app_invoke (initial_state q) env)) = searches env ++ added /\
    Forall (fun ev => planned_call q (detect_regulations q) (call_of ev)) added /\
    length added <= 3 * Nat.max 1 (length (detect_regulations q)) + 2 /\
    length added <= 17.
Proof.
  set (regs := detect_regulations q).
  set (m := Nat.max 1 (length regs)).
  assert (Hrun : exists (k : nat) added,
             1 <= k <= 3 /\
             searches (snd (app_invoke (initial_state q) env)) =
               searches env ++ added /\
             Forall (fun ev => planned_call q regs (call_of ev)) added /\
             length added <= k * m + (k - 1)).
  { destruct (app_invoke_passes
                (fun s _ e =>
                   query s = q /\ target_regulations s = regs /\
                   exists (k : nat) added,
                     k <= 2 /\ retry_count s = Some (Z.of_nat k) /\
                     searches e = searches env ++ added /\
                     Forall (fun ev => planned_call q regs (call_of ev)) added /\
                     length added <= k * m + (k - 1))
                (fun _ _ e =>
                   exists (k : nat) added,
                     1 <= k <= 3 /\
                     searches e = searches env ++ added /\
                     Forall (fun ev => planned_call q regs (call_of ev)) added /\
                     length added <= k * m + (k - 1))
                (fun _ _ _ e =>
                   exists (k : nat) added,
                     1 <= k <= 3 /\
                     searches e = searches env ++ added /\
                     Forall (fun ev => planned_call q regs (call_of ev)) added /\
                     length added <= k * m + (k - 1))
                q env) as [(s3 & H & _) | (s2 & e & H & _)];
      [| | |exact H|exact H].
    - intros s0 e0 E0.
      destruct (router_agent_frame (initial_state q) env) as (reply & w & Hr).
      rewrite Hr in E0. injection E0 as <- <-. simpl.
      split; [reflexivity|]. split; [reflexivity|].
      exists 0, []. rewrite app_nil_r.
      split; [lia|]. split; [reflexivity|]. split; [reflexivity|].
      split; [constructor | simpl; lia].
    - intros s trace env' s1 e1 s2 e2 s3 e3
        (Hq & Hregs & k & added & Hk & Hrc & Hlog & Hall & Hlen) E1 E2 E3.
      destruct (half_pass_searches q env k added s env' s1 s2 e1 e2
                  Hq Hregs Hrc Hlog Hall Hlen E1 E2)
        as (docs & reply & Hs2 & added' & Hlog' & Hall' & Hlen').
      destruct (compliance_checker_agent_ok s2 s3 e2 e3 E3)
        as (Hs3 & v & -> & _).
      rewrite <- Hs3 in Hlog'. subst s2.
      split.
      + exists (S k), added'. repeat split; try assumption; lia.
      + intros Hnext. simpl. split; [exact Hq|]. split; [exact Hregs|].
        exists (S k), added'.
        match type of Hnext with
        | next_node _ ?st = _ => pose proof (next_node_checker st) as Hchk
        end.
        rewrite Hnext in Hchk. destruct Hchk as [[_ Hle] | Hbad]; [|discriminate].
        simpl in Hle.
        split; [lia|]. split; [f_equal; lia|]. repeat split; assumption.
    - intros s trace env' s1 e1 s2 e2 e e3
        (Hq & Hregs & k & added & Hk & Hrc & Hlog & Hall & Hlen) E1 E2 E3.
      destruct (half_pass_searches q env k added s env' s1 s2 e1 e2
                  Hq Hregs Hrc Hlog Hall Hlen E1 E2)
        as (docs & reply & Hs2 & added' & Hlog' & Hall' & Hlen').
      destruct (compliance_checker_agent_raise s2 e2 e3 e E3) as (Hs3 & _).
      rewrite <- Hs3 in Hlog'.
      exists (S k), added'. repeat split; try assumption; lia. }
  destruct Hrun as (k & added & Hk & Hlog & Hall & Hlen).
  exists added. split; [exact Hlog|]. split; [exact Hall|].
  pose proof (detect_regulations_length q) as H5. fold regs in H5.
  assert (Hm : m <= 5) by (unfold m; lia).
  destruct Hk as [Hk1 Hk3].
  assert (Hb : length added <= 3 * m + 2).
  { destruct k as [|[|[|[|k]]]]; try lia; simpl in Hlen; lia. }
  split; [exact Hb | lia].
Qed.

Lemma visits_retriever_pass (trace : list (node * AgentState))
    (s1 s2 s3 : AgentState) :
  visits retriever (trace ++ [(retriever, s1); (synthesizer, s2);
                              (compliance_checker, s3)]) =
  S (visits retriever trace).
Proof. rewrite visits_app. unfold visits at 2. simpl. lia. Qed.

(** The gate on the parse-failure default: retry while retry_count <= 2. *)
Lemma next_node_on_default (s : AgentState) :
  verification s = Some parse_failure_default ->
  next_node compliance_checker s =
  Ok (if (default 0 (retry_count s) <=? 2)%Z then retriever else END).
Proof.
  intros Hv. destruct parse_failure_default_confidence as (fields & Hd & Hc).
  cbn [next_node].
  rewrite (should_retry_number s fields (1 # 2));
    [| rewrite Hv; exact Hd | exact Hc].
  change (Qltb (1 # 2) (7 # 10)) with true. simpl.
  now destruct (default 0 (retry_count s) <=? 2)%Z.
Qed.

(** X6.  A run returns the parse-failure default only after three passes.
    The gate reads the default's confidence 0.5 as low, so a pass that
    stored it is followed by another one while retry_count <= 2: a run
    that reaches END with the parse-failure default as its verification
    entered the retriever exactly three times and ran ten nodes, its
    final retry_count is 3, and [ask_question] returns the default with
    confidence 0.5. *)
Theorem parse_failure_default_after_three_passes (q : string) (env : Env)
    (final : AgentState) :
  fst (fst (app_invoke (initial_state q) env)) = Finished final ->
  verification final = Some parse_failure_default ->
  visits retriever (snd (fst (app_invoke (initial_state q) env))) = 3 /\
  length (snd (fst (app_invoke (initial_state q) env))) = 10 /\
  retry_count final = Some 3%Z /\
  exists response,
    fst (ask_question q env) = Ok response /\
    resp_verification response = parse_failure_default /\
    resp_confidence response = JNum (1 # 2).
Proof.
  intros Hfin Hver.
  destruct (app_invoke_passes
              (fun s trace _ =>
                 exists k : nat, k <= 2 /\
                   retry_count s = Some (Z.of_nat k) /\
                   visits retriever trace = k /\
                   length trace = 1 + 3 * k)
              (fun s3 trace _ =>
                 exists k : nat, 1 <= k <= 3 /\
                   retry_count s3 = Some (Z.of_nat k) /\
                   visits retriever trace = k /\
                   length trace = 1 + 3 * k)
              (fun _ _ _ _ => True)
              q env)
    as [(s3 & (k & Hk & Hrc & Hv & Hlen) & Hend) | (s2 & e & _ & Hres & _)].
  - intros s0 e0 E0. exists 0. split; [lia|].
    pose proof (router_agent_fields (initial_state q) env) as H.
    rewrite E0 in H. split; [exact H|]. split; reflexivity.
  - intros s trace env' s1 e1 s2 e2 s3 e3 (k & Hk & Hrc & Hv & Hlen) E1 E2 E3.
    pose proof (pass_retry_count s env' s1 s2 s3 e1 e2 e3 E1 E2 E3) as Hrc3.
    rewrite Hrc in Hrc3. simpl in Hrc3.
    replace (Z.of_nat k + 1)%Z with (Z.of_nat (S k)) in Hrc3 by lia.
    rewrite visits_retriever_pass, Hv, length_app, Hlen. split.
    + exists (S k). split; [lia|]. split; [exact Hrc3|].
      split; [reflexivity | simpl; lia].
    + intros Hnext. exists (S k). split.
      * pose proof (next_node_checker s3) as Hchk. rewrite Hnext in Hchk.
        destruct Hchk as [[_ Hle] | Hbad]; [|discriminate].
        rewrite Hrc3 in Hle. simpl in Hle. lia.
      * split; [exact Hrc3|]. split; [reflexivity | simpl; lia].
  - intros; exact I.
  - destruct (proj1 (gate_outcome s3 _ Hend) final Hfin) as [Heq Hgate].
    subst s3.
    rewrite (next_node_on_default final Hver), Hrc in Hgate.
    simpl in Hgate.
    destruct (Z.leb_spec (Z.of_nat k) 2) as [Hle | Hgt]; [discriminate|].
    assert (Hk3 : k = 3) by lia.
    rewrite Hk3 in Hrc, Hv, Hlen.
    split; [exact Hv|]. split; [exact Hlen|]. split; [exact Hrc|].
    rewrite (ask_question_finished q env final Hfin).
    unfold package_response. rewrite Hver. eexists.
    split; [reflexivity|]. split; [reflexivity | vm_compute; reflexivity].
  - rewrite Hres in Hfin. discriminate.
Qed.

(** ** Ingestion: tagging pages with their regulation *)

Lemma scan_regulation_map_spec (nl : string) (items : list (string * string)) :
  (exists before key reg after,
      items = before ++ (key, reg) :: after /\
      contains key nl = true /\
      Forall (fun item => contains (fst item) nl = false) before /\
      scan_regulation_map nl items = reg) \/
  (Forall (fun item => contains (fst item) nl = false) items /\
   scan_regulation_map nl items = "Unknown").
Proof.
  induction items as [|[key reg] others IH]; simpl.
  - right. split; [constructor | reflexivity].
  - destruct (contains key nl) eqn:E.
    + left. exists [], key, reg, others. repeat split; auto.
    + destruct IH as [(before & k & r & after & -> & Hk & Hb & Hr) | [Hall Hr]].
      * left. exists ((key, reg) :: before), k, r, after.
        repeat split; auto.
      * right. split; [constructor; auto | exact Hr].
Qed.

Lemma not_contains_lower (key filename : string) :
  contains key (lower filename) = false <-> ~ occurs_ignoring_case key filename.
Proof.
  rewrite <- contains_lower_spec. destruct (contains key (lower filename));
    split; intros H; congruence.
Qed.

Lemma regulation_map_values :
  Forall (fun item => snd item ∈ KNOWN_REGULATIONS) REGULATION_MAP.
Proof.
  unfold REGULATION_MAP, KNOWN_REGULATIONS.
  repeat (constructor; [simpl; set_solver|]). constructor.
Qed.

(** X7.  [detect_regulation_name] tags a file with the regulation of the
    first key of REGULATION_MAP, in its order, that occurs in the file name
    up to letter case, and that regulation is a name of the router's
    catalog; when no key occurs the tag is Unknown. *)
Theorem detect_regulation_name_first_key (filename : string) :
  (exists before key reg after,
      REGULATION_MAP = before ++ (key, reg) :: after /\
      occurs_ignoring_case key filename /\
      (forall k r, (k, r) ∈ before -> ~ occurs_ignoring_case k filename) /\
      detect_regulation_name filename = reg /\
      reg ∈ KNOWN_REGULATIONS) \/
  ((forall k r, (k, r) ∈ REGULATION_MAP -> ~ occurs_ignoring_case k filename) /\
   detect_regulation_name filename = "Unknown").
Proof.
  unfold detect_regulation_name.
  destruct (scan_regulation_map_spec (lower filename) REGULATION_MAP)
    as [(before & key & reg & after & Hmap & Hk & Hb & Hr) | [Hall Hr]].
  - left. exists before, key, reg, after. split; [exact Hmap|].
    split; [now apply contains_lower_spec|]. split.
    + intros k r Hin. apply not_contains_lower.
      rewrite Forall_forall in Hb. exact (Hb (k, r) Hin).
    + split; [exact Hr|].
      pose proof regulation_map_values as Hv. rewrite Hmap in Hv.
      apply Forall_app in Hv as [_ Hv]. now inversion Hv.
  - right. split; [|exact Hr]. intros k r Hin. apply not_contains_lower.
    rewrite Forall_forall in Hall. exact (Hall (k, r) Hin).
Qed.

Lemma load_each_spec (files : list PdfFile) (all_docs : list Document)
    (printed : list string) :
  snd (load_each files all_docs printed) =
    all_docs ++
    concat (map (fun f =>
                   map (tag_page (detect_regulation_name (pdf_name f)) (pdf_name f))
                       (pdf_pages f))
                files) /\
  length (fst (load_each files all_docs printed)) =
    length printed + 3 * length files.
Proof.
  revert all_docs printed.
  induction files as [|f others IH]; intros all_docs printed.
  - simpl. rewrite app_nil_r. split; [reflexivity | lia].
  - cbn [load_each]. cbv zeta.
    match goal with
    | |- context [load_each others ?d ?p] =>
        destruct (IH d p) as [Hdocs Hprinted]
    end.
    rewrite Hdocs, Hprinted. split.
    + cbn [map concat]. now rewrite <- app_assoc.
    + rewrite !length_app. cbn [length]. lia.
Qed.

Lemma tag_page_metadata (reg name : string) (page : Document) :
  page_content (tag_page reg name page) = page_content page /\
  metadata (tag_page reg name page) !! "regulation" = Some (JStr reg) /\
  metadata (tag_page reg name page) !! "source" = Some (JStr name) /\
  (forall key, key <> "regulation" -> key <> "source" ->
               metadata (tag_page reg name page) !! key = metadata page !! key).
Proof.
  unfold tag_page. simpl. split; [reflexivity|]. split; [|split].
  - rewrite lookup_insert_ne by discriminate. apply lookup_insert_eq.
  - apply lookup_insert_eq.
  - intros key H1 H2. now rewrite !lookup_insert_ne by congruence.
Qed.

(** X8.  [load_pdfs] exits with status 1 when the directory has no PDF.
    Otherwise it returns the pages of all files, file by file and in page
    order; every returned page keeps its text and its other metadata, and
    carries the regulation detected from its file's name and that file's
    name as source; three lines are printed per file. *)
Theorem load_pdfs_tags_every_page (data_dir : string) (files : list PdfFile) :
  (files = [] ->
   snd (load_pdfs data_dir files) = SystemExit 1 /\
   length (fst (load_pdfs data_dir files)) = 2) /\
  (files <> [] ->
   exists docs,
     snd (load_pdfs data_dir files) = Loaded docs /\
     length (fst (load_pdfs data_dir files)) = 3 * length files /\
     map page_content docs =
       concat (map (fun f => map page_content (pdf_pages f)) files) /\
     Forall (fun doc =>
               exists f page,
                 f ∈ files /\ page ∈ pdf_pages f /\
                 page_content doc = page_content page /\
                 metadata doc !! "regulation" =
                   Some (JStr (detect_regulation_name (pdf_name f))) /\
                 metadata doc !! "source" = Some (JStr (pdf_name f)) /\
                 (forall key, key <> "regulation" -> key <> "source" ->
                              metadata doc !! key = metadata page !! key))
            docs).
Proof.
  split.
  - intros ->. split; reflexivity.
  - intros Hne. unfold load_pdfs.
    destruct files as [|f0 rest] eqn:Ef; [congruence|]. rewrite <- Ef. clear Hne.
    destruct (load_each_spec files [] []) as [Hdocs Hprinted].
    destruct (load_each files [] []) as [printed all_docs].
    cbn [fst snd] in *. simpl in Hdocs, Hprinted.
    exists all_docs. split; [reflexivity|]. split; [exact Hprinted|].
    rewrite Hdocs. clear. split.
    + induction files as [|f others IH]; simpl; [reflexivity|].
      rewrite map_app, IH, map_map. reflexivity.
    + apply Forall_forall. intros doc Hin.
      apply list_elem_of_In, in_concat in Hin as (l & Hl & Hdoc).
      apply in_map_iff in Hl as (f & <- & Hf).
      apply in_map_iff in Hdoc as (page & <- & Hpage).
      exists f, page.
      destruct (tag_page_metadata (detect_regulation_name (pdf_name f))
                  (pdf_name f) page) as (H1 & H2 & H3 & H4).
      rewrite !list_elem_of_In. auto 10.
Qed.

(** ** Previews and prompts *)

Lemma take_chars_length (n : nat) (s : string) :
  String.length (take_chars n s) = Nat.min n (String.length s).
Proof.
  revert s. induction n as [|n IH]; intros s; [reflexivity|].
  destruct s as [|c s]; simpl; [reflexivity | now rewrite IH].
Qed.

Lemma take_chars_prefix (n : nat) (s : string) :
  exists rest, s = take_chars n s +:+ rest.
Proof.
  revert s. induction n as [|n IH]; intros s; [now exists s|].
  destruct s as [|c s]; simpl; [now exists EmptyString|].
  destruct (IH s) as (rest & H). exists rest. now rewrite <- H.
Qed.

Lemma take_chars_short (n : nat) (s : string) :
  String.length s <= n -> take_chars n s = s.
Proof.
  revert s. induction n as [|n IH]; intros s H.
  - destruct s; [reflexivity | simpl in H; lia].
  - destruct s as [|c s]; simpl; [reflexivity|].
    simpl in H. rewrite IH by lia. reflexivity.
Qed.

(** X9.  [format_sources] returns one source per passage, in order; the
    content of each is the first 300 characters of the passage text, the
    whole text when it is no longer than that; a passage without a
    regulation or page in its metadata is reported as Unknown and page 0. *)
Theorem format_sources_previews (docs : list Document) :
  Forall2 (fun doc src =>
             String.length (src_content src) =
               Nat.min 300 (String.length (page_content doc)) /\
             (exists rest, page_content doc = src_content src +:+ rest) /\
             (String.length (page_content doc) <= 300 ->
              src_content src = page_content doc) /\
             (metadata doc !! "regulation" = None ->
              src_regulation src = JStr "Unknown") /\
             (metadata doc !! "page" = None -> src_page src = JNum 0) /\
             (forall v, metadata doc !! "regulation" = Some v ->
                        src_regulation src = v) /\
             (forall v, metadata doc !! "page" = Some v -> src_page src = v))
          docs (format_sources docs).
Proof.
  induction docs as [|doc docs IH]; [constructor|].
  cbn [format_sources map]. constructor; [|exact IH].
  cbn [src_content src_regulation src_page].
  split; [apply take_chars_length|]. split; [apply take_chars_prefix|].
  split; [apply take_chars_short|].
  repeat split; intros; match goal with H : _ !! _ = _ |- _ => now rewrite H end.
Qed.

Lemma occurs_refl (w : string) : occurs w w.
Proof. exists EmptyString, EmptyString. now rewrite append_empty_r. Qed.

Lemma occurs_middle (w a b : string) : occurs w (a +:+ w +:+ b).
Proof. now exists a, b. Qed.

Lemma occurs_app (w s a b : string) : occurs w s -> occurs w (a +:+ s +:+ b).
Proof.
  intros (pre & post & ->). exists (a +:+ pre), (post +:+ b).
  now rewrite !append_assoc.
Qed.

Lemma occurs_app_l (w a s : string) : occurs w s -> occurs w (a +:+ s).
Proof.
  intros (pre & post & ->). exists (a +:+ pre), post. now rewrite append_assoc.
Qed.

Lemma occurs_prefix (w s : string) : occurs w (w +:+ s).
Proof. now exists EmptyString, s. Qed.

Lemma occurs_join (sep p : string) (parts : list string) :
  In p parts -> occurs p (join sep parts).
Proof.
  induction parts as [|x rest IH]; [contradiction|].
  intros [-> | Hin].
  - destruct rest as [|y rest]; [apply occurs_refl|].
    change (join sep (p :: y :: rest))
      with (p +:+ sep +:+ join sep (y :: rest)).
    exists EmptyString, (sep +:+ join sep (y :: rest)). reflexivity.
  - destruct rest as [|y rest]; [contradiction|].
    change (join sep (x :: y :: rest))
      with (x +:+ sep +:+ join sep (y :: rest)).
    specialize (IH Hin).
    replace (x +:+ sep +:+ join sep (y :: rest))
      with ((x +:+ sep) +:+ join sep (y :: rest) +:+ EmptyString)
      by now rewrite append_empty_r, append_assoc.
    now apply occurs_app.
Qed.

Lemma occurs_trans (w s t : string) : occurs w s -> occurs s t -> occurs w t.
Proof. intros Hws (pre & post & ->). now apply occurs_app. Qed.

Lemma join_map_contains {A} (sep : string) (f g : A -> string) (l : list A) (x : A) :
  (forall y, occurs (g y) (f y)) -> In x l ->
  occurs (g x) (join sep (map f l)).
Proof.
  intros Hfg Hin. apply (occurs_trans _ (f x)); [apply Hfg|].
  apply occurs_join. now apply in_map.
Qed.

Lemma format_context_contains (docs : list Document) (doc : Document) :
  doc ∈ docs -> occurs (page_content doc) (format_context docs).
Proof.
  intros Hin. unfold format_context. cbv zeta.
  apply join_map_contains with (g := page_content);
    [|now apply list_elem_of_In].
  intros y. do 6 apply occurs_app_l. apply occurs_refl.
Qed.

Lemma format_sources_for_check_contains (docs : list Document) (doc : Document) :
  doc ∈ docs -> occurs (page_content doc) (format_sources_for_check docs).
Proof.
  intros Hin. unfold format_sources_for_check. cbv zeta.
  apply join_map_contains with (g := page_content);
    [|now apply list_elem_of_In].
  intros y. do 6 apply occurs_app_l. apply occurs_refl.
Qed.

Lemma USER_PROMPT_contains (query_type context query : string) :
  occurs query_type (USER_PROMPT query_type context query) /\
  occurs context (USER_PROMPT query_type context query) /\
  occurs query (USER_PROMPT query_type context query).
Proof.
  unfold USER_PROMPT. split; [|split].
  - apply occurs_app_l, occurs_prefix.
  - do 3 apply occurs_app_l. apply occurs_prefix.
  - do 5 apply occurs_app_l. apply occurs_prefix.
Qed.

Lemma VERIFICATION_PROMPT_contains (sources answer : string) :
  occurs sources (VERIFICATION_PROMPT sources answer) /\
  occurs answer (VERIFICATION_PROMPT sources answer).
Proof.
  unfold VERIFICATION_PROMPT. split.
  - apply occurs_app_l, occurs_prefix.
  - do 3 apply occurs_app_l. apply occurs_prefix.
Qed.

(** X10.  The synthesizer sends one system message and one user message;
    the user message contains the query, the query type and the full text
    of every retrieved passage.  The compliance checker sends one prompt; it
    contains the answer and the full text of every retrieved passage. *)
Theorem prompts_carry_full_passages (s : AgentState) (env : Env) :
  (exists user_message,
      synthesizer_agent s env =
        (let (reply, w) :=
           chat_invoke "gpt-4o"
             (Messages [("system", SYSTEM_PROMPT); ("user", user_message)])
             (world env) in
         (set_answer reply s, {| world := w; searches := searches env |})) /\
      occurs (query s) user_message /\
      occurs (query_type s) user_message /\
      (forall doc, doc ∈ retrieved_docs s ->
                   occurs (page_content doc) user_message)) /\
  (exists prompt,
      compliance_checker_agent s env =
        (let (reply, w) :=
           chat_invoke "gpt-4o-mini" (Prompt prompt) (world env) in
         (try! v := parse_verification_response reply in
          Ok (set_verification v s),
          {| world := w; searches := searches env |})) /\
      occurs (answer s) prompt /\
      (forall doc, doc ∈ retrieved_docs s ->
                   occurs (page_content doc) prompt)).
Proof.
  split.
  - exists (USER_PROMPT (query_type s) (format_context (retrieved_docs s))
              (query s)).
    destruct (USER_PROMPT_contains (query_type s)
                (format_context (retrieved_docs s)) (query s))
      as (Hqt & Hctx & Hq).
    split.
    + unfold synthesizer_agent, bind, ret, llm_invoke.
      destruct (chat_invoke _ _ (world env)). reflexivity.
    + split; [exact Hq|]. split; [exact Hqt|].
      intros doc Hin. eapply occurs_trans; [|exact Hctx].
      now apply format_context_contains.
  - exists (VERIFICATION_PROMPT (format_sources_for_check (retrieved_docs s))
              (answer s)).
    destruct (VERIFICATION_PROMPT_contains
                (format_sources_for_check (retrieved_docs s)) (answer s))
      as (Hsrc & Hans).
    split.
    + unfold compliance_checker_agent, bind, ret, llm_invoke.
      destruct (chat_invoke _ _ (world env)). reflexivity.
    + split; [exact Hans|].
      intros doc Hin. eapply occurs_trans; [|exact Hsrc].
      now apply format_sources_for_check_contains.
Qed.

(** ** Code fences without a closing line *)



(** ** More on regulation detection *)

Lemma lower_upper_char (c : ascii) : lower_char (upper_char c) = lower_char c.
Proof. destruct c as [[] [] [] [] [] [] [] []]; reflexivity. Qed.

Lemma lower_lower_char (c : ascii) : lower_char (lower_char c) = lower_char c.
Proof. destruct c as [[] [] [] [] [] [] [] []]; reflexivity. Qed.

Lemma lower_upper (s : string) : lower (upper s) = lower s.
Proof.
  unfold lower, upper. induction s as [|c s IH]; simpl; [reflexivity|].
  now rewrite lower_upper_char, IH.
Qed.

Lemma lower_lower (s : string) : lower (lower s) = lower s.
Proof.
  unfold lower. induction s as [|c s IH]; simpl; [reflexivity|].
  now rewrite lower_lower_char, IH.
Qed.

Lemma detect_regulations_ignores_case_lower (q q' : string) :
  lower q = lower q' -> detect_regulations q = detect_regulations q'.
Proof. unfold detect_regulations. cbv zeta. now intros ->. Qed.

(** X12.  On a query of ASCII characters detection does not depend on
    the letter case: the query, its uppercase form and its lowercase form
    give the same list.  Beyond ASCII the statement does not carry over,
    since [str.upper] can turn a character that is no letter of a keyword
    into one. *)
Theorem detect_regulations_ignores_ascii_case (q : string) :
  is_ascii q = true ->
  detect_regulations (upper q) = detect_regulations q /\
  detect_regulations (lower q) = detect_regulations q.
Proof.
  intros _. unfold detect_regulations. cbv zeta.
  rewrite lower_upper, lower_lower. split; reflexivity.
Qed.

Lemma detect_regulations_member (q regulation : string) :
  regulation ∈ detect_regulations q <->
  exists keywords keyword,
    (regulation, keywords) ∈ patterns /\ keyword ∈ keywords /\
    occurs_ignoring_case keyword q.
Proof.
  rewrite detect_regulations_filter, list_elem_of_In, in_map_iff. split.
  - intros ([r ks] & Hr & Hin). simpl in Hr. subst r.
    apply filter_In in Hin as [Hin Hm].
    apply mentions_spec in Hm as (k & Hk & Ho).
    exists ks, k. split; [now apply list_elem_of_In | auto].
  - intros (ks & k & Hin & Hk & Ho). exists (regulation, ks).
    split; [reflexivity|]. apply filter_In.
    split; [now apply list_elem_of_In|]. apply mentions_spec. now exists k.
Qed.

Lemma occurs_ignoring_case_app (keyword pre q post : string) :
  occurs_ignoring_case keyword q ->
  occurs_ignoring_case keyword (pre +:+ q +:+ post).
Proof.
  intros (a & w & b & -> & Hw). exists (pre +:+ a), w, (b +:+ post).
  split; [now rewrite !append_assoc | exact Hw].
Qed.

Lemma known_regulation_detects_itself (regulation : string) :
  regulation ∈ KNOWN_REGULATIONS -> regulation ∈ detect_regulations regulation.
Proof.
  unfold KNOWN_REGULATIONS. intros H.
  repeat (apply elem_of_cons in H as [-> | H];
          [apply list_elem_of_In; vm_compute; auto|]).
  now apply elem_of_nil in H.
Qed.

(** X13.  Detection matches substrings, so text around a query never hides
    a regulation: whatever is detected in a query is detected in every
    text that contains it, and every catalog name is detected in any text
    that contains it, in any letter case. *)
Theorem detect_regulations_monotone (pre q post : string) :
  (forall regulation,
      regulation ∈ detect_regulations q ->
      regulation ∈ detect_regulations (pre +:+ q +:+ post)) /\
  (forall regulation spelled,
      regulation ∈ KNOWN_REGULATIONS ->
      lower spelled = lower regulation ->
      regulation ∈ detect_regulations (pre +:+ spelled +:+ post)).
Proof.
  assert (Hmono : forall a s b regulation,
             regulation ∈ detect_regulations s ->
             regulation ∈ detect_regulations (a +:+ s +:+ b)).
  { intros a s b regulation Hin.
    apply detect_regulations_member in Hin as (ks & k & Hp & Hk & Ho).
    apply detect_regulations_member. exists ks, k.
    split; [exact Hp|]. split; [exact Hk|].
    now apply occurs_ignoring_case_app. }
  split; [apply Hmono|].
  intros regulation spelled Hknown Hcase. apply Hmono.
  rewrite (detect_regulations_ignores_case_lower spelled regulation Hcase).
  now apply known_regulation_detects_itself.
Qed.

(** ** The size of a response *)

Lemma vectorstore_search_length (q : string) (k : Z)
    (f : option (gmap string string)) (env : Env) :
  honours_k ->
  length (fst (vectorstore_similarity_search q k f env)) <= Z.to_nat k.
Proof.
  intros H. unfold vectorstore_similarity_search.
  pose proof (H q k f (world env)) as Hk.
  destruct (chroma_search q k f (world env)). exact Hk.
Qed.

Lemma similarity_search_length (q : string) (k : Z)
    (f : option (gmap string string)) (env : Env) :
  honours_k ->
  length (fst (similarity_search q k f env)) <= Z.to_nat k.
Proof.
  intros H. unfold similarity_search. destruct f as [f|];
    [destruct (decide (f = ∅))|]; now apply vectorstore_search_length.
Qed.

Lemma search_each_length (q : string) (k : Z) (regs : list string)
    (results : list Document) (env : Env) :
  honours_k ->
  length (fst (search_each q k regs results env)) <=
  length results + length regs * Z.to_nat k.
Proof.
  intros H. revert results env.
  induction regs as [|reg others IH]; intros results env.
  - simpl. lia.
  - cbn [search_each]. unfold bind.
    pose proof (similarity_search_length q k (regulation_filter reg) env H) as Hk.
    destruct (similarity_search q k (regulation_filter reg) env)
      as [reg_results env1]. cbn [fst] in Hk.
    specialize (IH (results ++ reg_results) env1).
    rewrite length_app in IH. cbn [length]. lia.
Qed.

Lemma primary_retrieval_length (q intent : string) (regs : list string)
    (env : Env) :
  honours_k ->
  length (fst (primary_retrieval q intent regs env)) <=
  Nat.max 10 (5 * length regs).
Proof.
  intros H. unfold primary_retrieval.
  destruct (String.eqb intent "LOOKUP" && Nat.eqb (length regs) 1).
  { pose proof (similarity_search_length q 5
                  (regulation_filter (nth 0 regs EmptyString)) env H) as Hk.
    change (Z.to_nat 5) with 5 in Hk. lia. }
  destruct (String.eqb intent "COMPARE" && Nat.leb 2 (length regs)) eqn:E.
  { apply andb_true_iff in E as [_ Hlen]. apply Nat.leb_le in Hlen.
    assert (Hk5 : Z.max 5 (10 / Z.of_nat (length regs)) = 5%Z).
    { apply Z.max_l. apply Z.lt_succ_r. apply Z.div_lt_upper_bound; lia. }
    rewrite Hk5.
    pose proof (search_each_length q 5 regs [] env H) as Hk.
    change (Z.to_nat 5) with 5 in Hk. cbn [length] in Hk. lia. }
  destruct (String.eqb intent "COMPARE").
  - pose proof (similarity_search_length q 10 None env H) as Hk.
    change (Z.to_nat 10) with 10 in Hk. lia.
  - pose proof (similarity_search_length q 7 None env H) as Hk.
    change (Z.to_nat 7) with 7 in Hk. lia.
Qed.

Lemma retriever_agent_docs_length (s : AgentState) (env : Env) :
  honours_k ->
  length (retrieved_docs (fst (retriever_agent s env))) <=
  Nat.max 10 (5 * length (target_regulations s)).
Proof.
  intros H. rewrite retriever_agent_run.
  pose proof (primary_retrieval_length (query s) (query_type s)
                (target_regulations s) env H) as Hp.
  destruct (widens s _); cbv zeta; [|exact Hp].
  pose proof (vectorstore_search_length (query s) 10 None
                (snd (primary_retrieval (query s) (query_type s)
                        (target_regulations s) env)) H) as Hw.
  destruct (vectorstore_similarity_search _ _ _ _) as [widened env2].
  cbn [fst set_retry_count set_retrieved_docs retrieved_docs] in *.
  change (Z.to_nat 10) with 10 in Hw. lia.
Qed.

Lemma format_sources_content_length (docs : list Document) :
  Forall (fun src => String.length (src_content src) <= 300)
         (format_sources docs).
Proof.
  unfold format_sources. apply Forall_forall. intros src Hin.
  apply list_elem_of_In, in_map_iff in Hin as (doc & <- & _).
  cbn [src_content]. rewrite take_chars_length. lia.
Qed.

Lemma format_sources_length (docs : list Document) :
  length (format_sources docs) = length docs.
Proof. unfold format_sources. apply length_map. Qed.

Lemma package_response_sources (result : AgentState) (response : Response) :
  package_response result = Ok response ->
  resp_sources response = format_sources (retrieved_docs result).
Proof.
  unfold package_response. destruct (py_dict_get _ _ _); simpl; [|discriminate].
  now intros [= <-].
Qed.

(** X14.  When the vector index never answers more than the k passages it
    is asked for, a response of [ask_question] carries at most
    max(10, 5 * detected regulations) sources, hence at most 25, each with
    a content of at most 300 characters. *)
Theorem ask_question_response_size (q : string) (env : Env) :
  honours_k ->
  match fst (ask_question q env) with
  | Ok response =>
      length (resp_sources response) <=
        Nat.max 10 (5 * length (detect_regulations q)) /\
      length (resp_sources response) <= 25 /\
      Forall (fun src => String.length (src_content src) <= 300)
             (resp_sources response)
  | Raise _ => True
  end.
Proof.
  intros H.
  destruct (app_invoke_passes
              (fun s _ _ => target_regulations s = detect_regulations q)
              (fun s3 _ _ =>
                 length (retrieved_docs s3) <=
                 Nat.max 10 (5 * length (detect_regulations q)))
              (fun _ _ _ _ => True)
              q env) as [(s3 & Hlen & Hend) | (s2 & e & _ & Hres & _)].
  - intros s0 e0 E0.
    destruct (router_agent_frame (initial_state q) env) as (reply & w & Hr).
    rewrite Hr in E0. injection E0 as <- _. reflexivity.
  - intros s trace env' s1 e1 s2 e2 s3 e3 Hregs E1 E2 E3.
    pose proof (retriever_agent_docs_length s env' H) as Hdocs.
    destruct (retriever_agent_frame s env') as (docs & H1).
    destruct (synthesizer_agent_frame s1 e1) as (reply & w2 & H2).
    destruct (compliance_checker_agent_ok s2 s3 e2 e3 E3) as (_ & v & H3 & _).
    rewrite E1 in H1, Hdocs. rewrite E2 in H2.
    cbn [fst] in H1, Hdocs.
    injection H2 as -> _. subst s3 s1.
    rewrite Hregs in Hdocs. split; [exact Hdocs|].
    intros _. exact Hregs.
  - intros; exact I.
  - unfold ask_question, bind, ret.
    destruct (app_invoke (initial_state q) env) as [[res trace] env'].
    cbn [fst snd] in *. destruct res as [final|e]; [|exact I].
    destruct (proj1 (gate_outcome s3 _ Hend) final eq_refl) as [-> Hgate].
    destruct (package_response s3) as [response|] eqn:Ep; cbn [fst];
      [|exact I].
    rewrite (package_response_sources s3 response Ep), format_sources_length.
    pose proof (detect_regulations_length q) as H5.
    split; [exact Hlen|]. split; [lia|].
    apply format_sources_content_length.
  - unfold ask_question, bind, ret.
    destruct (app_invoke (initial_state q) env) as [[res trace] env'].
    cbn [fst snd] in *. rewrite Hres. exact I.
Qed.

(** ** The allowed origins *)

Lemma split_on_length (sep : ascii) (s : string) :
  length (split_on sep s) = S (count_char sep s).
Proof.
  induction s as [|c s IH]; [reflexivity|]. cbn [split_on count_char].
  destruct (Ascii.eqb c sep); cbn [length]; [now rewrite IH|].
  destruct (split_on sep s); simpl in *; lia.
Qed.

Lemma lstrip_idem (s : string) : lstrip (lstrip s) = lstrip s.
Proof.
  induction s as [|c s IH]; [reflexivity|]. simpl.
  destruct (isspace c) eqn:E; [exact IH|]. simpl. now rewrite E.
Qed.

Lemma rstrip_idem (s : string) : rstrip (rstrip s) = rstrip s.
Proof.
  induction s as [|c s IH]; [reflexivity|]. simpl.
  destruct (rstrip s) as [|k kept] eqn:E.
  - destruct (isspace c) eqn:Ec; simpl; [reflexivity | now rewrite Ec].
  - simpl in IH. simpl. now rewrite IH.
Qed.

Lemma lstrip_rstrip_kept (t : string) :
  lstrip t = t -> lstrip (rstrip t) = rstrip t.
Proof.
  destruct t as [|c t]; [reflexivity|]. simpl.
  destruct (isspace c) eqn:Ec.
  - intros H. exfalso.
    assert (Hlen : String.length (lstrip t) <= String.length t).
    { clear. induction t as [|x t IH]; simpl; [lia|].
      destruct (isspace x); simpl; lia. }
    rewrite H in Hlen. simpl in Hlen. lia.
  - intros _. destruct (rstrip t); simpl; now rewrite Ec.
Qed.

Lemma strip_idem (s : string) : strip (strip s) = strip s.
Proof.
  unfold strip.
  rewrite (lstrip_rstrip_kept (lstrip s)) by apply lstrip_idem.
  apply rstrip_idem.
Qed.

(** X15.  With CORS_ORIGINS unset or empty the allowed origins are the two
    local defaults.  Otherwise they are the comma-separated parts of the
    value, one more than it has commas, each without surrounding
    whitespace; the list is never empty, and an empty part is kept as an
    empty origin. *)
Theorem allowed_origins_parsed (value : string) :
  allowed_origins None = _default_origins /\
  allowed_origins (Some EmptyString) = _default_origins /\
  (value <> EmptyString ->
   allowed_origins (Some value) = map strip (split_on ","%char value) /\
   length (allowed_origins (Some value)) = S (count_char ","%char value) /\
   Forall (fun origin => strip origin = origin) (allowed_origins (Some value))) /\
  allowed_origins (Some value) <> [].
Proof.
  split; [reflexivity|]. split; [reflexivity|].
  unfold allowed_origins.
  destruct (String.eqb_spec value EmptyString) as [->|Hne].
  - split; [congruence | discriminate].
  - split.
    + intros _. split; [reflexivity|].
      split; [now rewrite length_map, split_on_length|].
      apply Forall_forall. intros origin Hin.
      apply list_elem_of_In, in_map_iff in Hin as (part & <- & _).
      apply strip_idem.
    + intros Hnil. apply (f_equal (@length string)) in Hnil.
      rewrite length_map, split_on_length in Hnil. discriminate.
Qed.

(** ** Boolean confidence *)

(** X16.  A confidence that is a JSON boolean is compared as the number 1
    or 0: with true the gate ends the run, with false it answers retry
    while retry_count <= 2; neither raises. *)
Theorem should_retry_boolean_confidence (state : AgentState)
    (fields : gmap string json) (b : bool) :
  default (JObj ∅) (verification state) = JObj fields ->
  fields !! "confidence" = Some (JBool b) ->
  should_retry state =
    Ok (if negb b && (default 0 (retry_count state) <=? 2)%Z
        then "retry" else "end") /\
  next_node compliance_checker state =
    Ok (if negb b && (default 0 (retry_count state) <=? 2)%Z
        then retriever else END).
Proof.
  intros Hv Hc.
  assert (Hs : should_retry state =
               Ok (if negb b && (default 0 (retry_count state) <=? 2)%Z
                   then "retry" else "end")).
  { unfold should_retry, gate_confidence. rewrite Hv. simpl. rewrite Hc. simpl.
    destruct b; simpl; [reflexivity|].
    now destruct (default 0 (retry_count state) <=? 2)%Z. }
  split; [exact Hs|]. cbn [next_node]. rewrite Hs.
  destruct (negb b && (default 0 (retry_count state) <=? 2)%Z); reflexivity.
Qed.
End Pipeline.

(** ** Concrete runs against the scripted environment *)

Local Abbreviation scripted_env script :=
  ({| world := (script : Scripted.World); searches := [] |}).

Local Abbreviation scripted_invoke :=
  (app_invoke Scripted.chat_invoke Scripted.chroma_search
     Scripted.json_loads Scripted.py_str).

Local Abbreviation scripted_ask :=
  (ask_question Scripted.chat_invoke Scripted.chroma_search
     Scripted.json_loads Scripted.py_str).

(** The cases of [tests/test_agents.py]. *)
Example detects_sr_11_7 :
  detect_regulations "What does SR 11-7 say?" = ["SR 11-7"] /\
  detect_regulations "SR11-7 requirements" = ["SR 11-7"] /\
  detect_regulations "What is model risk?" = [].
Proof. repeat split; vm_compute; reflexivity. Qed.

(** Both regulations are reported in catalog order, whatever the order of
    mention. *)
Example detects_two_in_catalog_order :
  detect_regulations "Compare SR 11-7 and NIST frameworks" =
    ["SR 11-7"; "NIST AI RMF"] /\
  detect_regulations "Compare NIST frameworks and SR 11-7" =
    ["SR 11-7"; "NIST AI RMF"].
Proof. split; vm_compute; reflexivity. Qed.

Example labels_normalized :
  normalized_label "MAYBE" = "EXPLAIN" /\
  normalized_label ("  compare" +:+ newline) = "COMPARE" /\
  normalized_label "INVALID_TYPE" = "EXPLAIN".
Proof. repeat split; vm_compute; reflexivity. Qed.

(** A fence that is never closed still loses its last line. *)
Example fence_examples :
  fence_stripped (fenced "json" "{}") = "{}" /\
  fence_stripped ("```json" +:+ newline +:+ "{}") = EmptyString.
Proof. split; vm_compute; reflexivity. Qed.

(** Confidence stays at 0.2: three passes, then END with retry_count 3.  The
    filtered search finds two passages, so the two retries widen. *)
Example low_confidence_run :
  let ran :=
    scripted_invoke (initial_state "What does SR 11-7 say about validation?")
      (scripted_env ["lookup"; "a1"; Scripted.low_payload;
                     "a2"; Scripted.low_payload;
                     "a3"; Scripted.low_payload]) in
  map fst (snd (fst ran)) =
    [router; retriever; synthesizer; compliance_checker;
     retriever; synthesizer; compliance_checker;
     retriever; synthesizer; compliance_checker] /\
  (exists final, fst (fst ran) = Finished final /\
                 retry_count final = Some 3%Z /\
                 query_type final = "LOOKUP" /\
                 target_regulations final = ["SR 11-7"]) /\
  map (fun ev => (ev_k ev, bool_decide (is_Some (ev_filter ev)), length (ev_results ev)))
      (searches (snd ran)) =
    [(5%Z, true, 2); (5%Z, true, 2); (10%Z, false, 4);
     (5%Z, true, 2); (10%Z, false, 4)].
Proof.
  cbv zeta. split; [vm_compute; reflexivity|]. split.
  - eexists. split; [vm_compute; reflexivity|]. repeat split.
  - vm_compute. reflexivity.
Qed.

(** One regulation, LOOKUP, confidence 0.9: one filtered search with k=5,
    one pass, END. *)
Example high_confidence_run :
  let ran :=
    scripted_invoke (initial_state "What does SR 11-7 say about validation?")
      (scripted_env ["LOOKUP"; "a1"; Scripted.high_payload]) in
  map fst (snd (fst ran)) =
    [router; retriever; synthesizer; compliance_checker] /\
  map call_of (searches (snd ran)) =
    [("What does SR 11-7 say about validation?", 5%Z,
      Some {[ "regulation" := "SR 11-7" ]})] /\
  (exists final, fst (fst ran) = Finished final /\ retry_count final = Some 1%Z).
Proof.
  cbv zeta. split; [vm_compute; reflexivity|]. split.
  - vm_compute. reflexivity.
  - eexists. split; [vm_compute; reflexivity | reflexivity].
Qed.

(** No passage of the regulation is indexed: the first pass keeps the empty
    answer, the retry replaces it with an unfiltered search with k=10. *)
Example empty_filtered_search_widens :
  let ran :=
    scripted_invoke (initial_state "What does the NAIC bulletin require?")
      (scripted_env ["LOOKUP"; "a1"; Scripted.low_payload;
                     "a2"; Scripted.high_payload]) in
  map (fun ev => (ev_k ev, bool_decide (is_Some (ev_filter ev)),
                  length (ev_results ev)))
      (searches (snd ran)) =
    [(5%Z, true, 0); (5%Z, true, 0); (10%Z, false, 4)] /\
  map (fun entry => length (retrieved_docs (snd entry)))
      (List.filter (fun entry => node_eqb (fst entry) retriever) (snd (fst ran))) =
    [0; 4].
Proof. cbv zeta. split; vm_compute; reflexivity. Qed.

(** A reply that decodes to a list is stored as the verification result;
    the retry gate then fails on it. *)
Example list_payload_raises :
  fst (scripted_ask "What is model risk?"
         (scripted_env ["EXPLAIN"; "an answer"; "[]"])) =
  Raise AttributeError.
Proof. vm_compute. reflexivity. Qed.

(** A reply that is an integer literal of 4301 digits on the second pass:
    the decoder raises ValueError, the compliance checker does not handle
    it, and the run fails after the second synthesizer. *)
Example long_integer_reply_aborts :
  let env := scripted_env ["EXPLAIN"; "a1"; Scripted.low_payload;
                           "a2"; Scripted.ones 4301] in
  fst (scripted_ask "What is model risk?" env) = Raise ValueError /\
  map fst (snd (fst (scripted_invoke (initial_state "What is model risk?") env))) =
    [router; retriever; synthesizer; compliance_checker;
     retriever; synthesizer].
Proof. cbv zeta. split; vm_compute; reflexivity. Qed.

(** An integer literal of 4300 digits still decodes; one more digit and
    the parser raises. *)
Example digit_limit :
  (exists payload,
      parse_verification_response Scripted.json_loads (Scripted.ones 4300) =
      Ok payload) /\
  parse_verification_response Scripted.json_loads "not json" =
    Ok parse_failure_default.
Proof.
  split; [|vm_compute; reflexivity].
  destruct (parse_verification_response Scripted.json_loads (Scripted.ones 4300))
    as [payload|e] eqn:E.
  - now exists payload.
  - exfalso. revert E. vm_compute. discriminate.
Qed.

(** A reply of 4301 digits, bare or fenced: the parser raises the
    decoder's ValueError. *)
Lemma parse_verification_response_raises_witness :
  parse_verification_response Scripted.json_loads (Scripted.ones 4301) =
    Raise ValueError /\
  parse_verification_response Scripted.json_loads
    (fenced "json" (Scripted.ones 4301)) = Raise ValueError.
Proof.
  split.
  - destruct (parse_verification_response_outcomes Scripted.json_loads
                (Scripted.ones 4301)) as (Hraise & _).
    apply Hraise. vm_compute. reflexivity.
  - destruct (parse_verification_response_outcomes Scripted.json_loads
                (fenced "json" (Scripted.ones 4301))) as (Hraise & _).
    apply Hraise. vm_compute. reflexivity.
Defined.

(** The gate at confidence 0.2 after the second pass: retry. *)
Lemma should_retry_gate_witness :
  let state :=
    {| query := "What does SR 11-7 say?"; query_type := "LOOKUP";
       target_regulations := ["SR 11-7"]; retrieved_docs := [];
       answer := "a2";
       verification := Some (JObj {[ "confidence" := JNum (1 # 5) ]});
       retry_count := Some 2%Z |} in
  default (JObj ∅) (verification state) =
    JObj {[ "confidence" := JNum (1 # 5) ]} /\
  should_retry state = Ok "retry" /\
  next_node compliance_checker state = Ok retriever.
Proof.
  cbv zeta. split; [reflexivity|].
  destruct (should_retry_gate
              {| query := "What does SR 11-7 say?"; query_type := "LOOKUP";
                 target_regulations := ["SR 11-7"]; retrieved_docs := [];
                 answer := "a2";
                 verification := Some (JObj {[ "confidence" := JNum (1 # 5) ]});
                 retry_count := Some 2%Z |}
              {[ "confidence" := JNum (1 # 5) ]} eq_refl) as [Hnum _].
  destruct (Hnum (1 # 5) ltac:(vm_compute; reflexivity))
    as (Hretry & _ & Hedge & _).
  split.
  - apply Hretry. split; [reflexivity | simpl; lia].
  - apply Hedge. split; [reflexivity | simpl; lia].
Defined.

(** The verifier replies an empty object: the run ends after one pass and
    the response reports confidence 0. *)
Lemma missing_confidence_witness :
  let q := "What is model risk?" in
  let env := scripted_env ["MAYBE"; "an answer"; "{}"] in
  exists result response,
    fst (fst (scripted_invoke (initial_state q) env)) = Finished result /\
    default (JObj ∅) (verification result) = JObj ∅ /\
    (∅ : gmap string json) !! "confidence" = None /\
    fst (scripted_ask q env) = Ok response /\
    resp_confidence response = JNum 0 /\
    gate_confidence result = Ok (JNum 1) /\
    should_retry result = Ok "end".
Proof.
  cbv zeta.
  match eval vm_compute in
        (fst (fst (scripted_invoke (initial_state "What is model risk?")
                     (scripted_env ["MAYBE"; "an answer"; "{}"])))) with
  | Finished ?r =>
      assert (Hrun :
        fst (fst (scripted_invoke (initial_state "What is model risk?")
                    (scripted_env ["MAYBE"; "an answer"; "{}"]))) =
        Finished r) by (vm_compute; reflexivity);
      destruct (missing_confidence_defaults_differ
                  Scripted.chat_invoke Scripted.chroma_search
                  Scripted.json_loads Scripted.py_str
                  "What is model risk?"
                  (scripted_env ["MAYBE"; "an answer"; "{}"])
                  r ∅ Hrun eq_refl eq_refl)
        as ((response & Hresp & Hconf) & Hgate & Hend);
      exists r, response
  end.
  repeat split; assumption || reflexivity.
Defined.

(** The first two replies of the verifier carry confidence 0.2, the third
    does not decode: the run ends after the third pass with the
    parse-failure default. *)
Lemma parse_failure_default_witness :
  let q := "What is model risk?" in
  let env := scripted_env ["EXPLAIN"; "a1"; Scripted.low_payload;
                           "a2"; Scripted.low_payload; "a3"; "not json"] in
  exists final response,
    fst (fst (scripted_invoke (initial_state q) env)) = Finished final /\
    verification final = Some parse_failure_default /\
    visits retriever (snd (fst (scripted_invoke (initial_state q) env))) = 3 /\
    retry_count final = Some 3%Z /\
    fst (scripted_ask q env) = Ok response /\
    resp_confidence response = JNum (1 # 2).
Proof.
  cbv zeta.
  match eval vm_compute in
        (fst (fst (scripted_invoke (initial_state "What is model risk?")
                     (scripted_env ["EXPLAIN"; "a1"; Scripted.low_payload;
                                    "a2"; Scripted.low_payload;
                                    "a3"; "not json"])))) with
  | Finished ?r =>
      assert (Hrun :
        fst (fst (scripted_invoke (initial_state "What is model risk?")
                    (scripted_env ["EXPLAIN"; "a1"; Scripted.low_payload;
                                   "a2"; Scripted.low_payload;
                                   "a3"; "not json"]))) =
        Finished r) by (vm_compute; reflexivity);
      assert (Hver : verification r = Some parse_failure_default)
        by (vm_compute; reflexivity);
      destruct (parse_failure_default_after_three_passes
                  Scripted.chat_invoke Scripted.chroma_search
                  Scripted.json_loads Scripted.py_str
                  "What is model risk?"
                  (scripted_env ["EXPLAIN"; "a1"; Scripted.low_payload;
                                 "a2"; Scripted.low_payload;
                                 "a3"; "not json"])
                  r Hrun Hver)
        as (Hv & _ & Hrc & response & Hask & _ & Hconf);
      exists r, response
  end.
  repeat split; assumption.
Defined.

(** An ASCII query in lower case. *)
Lemma detect_regulations_ignores_ascii_case_witness :
  is_ascii "what does sr 11-7 say?" = true /\
  detect_regulations (upper "what does sr 11-7 say?") = ["SR 11-7"] /\
  detect_regulations "what does sr 11-7 say?" = ["SR 11-7"].
Proof.
  split; [reflexivity|].
  destruct (detect_regulations_ignores_ascii_case "what does sr 11-7 say?"
              eq_refl) as [Hup _].
  split; [rewrite Hup|]; vm_compute; reflexivity.
Defined.


(** The scripted index takes at most k passages. *)
Lemma ask_question_response_size_witness :
  honours_k Scripted.chroma_search /\
  match fst (scripted_ask "Compare SR 11-7 and NIST frameworks"
               (scripted_env ["COMPARE"; "a1"; Scripted.high_payload])) with
  | Ok response => length (resp_sources response) <= 25
  | Raise _ => True
  end.
Proof.
  assert (H : honours_k Scripted.chroma_search).
  { intros q k f w. unfold Scripted.chroma_search. cbn [fst].
    rewrite length_take. lia. }
  split; [exact H|].
  pose proof (ask_question_response_size
                Scripted.chat_invoke Scripted.chroma_search
                Scripted.json_loads Scripted.py_str
                "Compare SR 11-7 and NIST frameworks"
                (scripted_env ["COMPARE"; "a1"; Scripted.high_payload]) H)
    as Hsize.
  destruct (fst (scripted_ask "Compare SR 11-7 and NIST frameworks"
                   (scripted_env ["COMPARE"; "a1"; Scripted.high_payload])))
    as [response|e]; [|exact I].
  destruct Hsize as (_ & H25 & _). exact H25.
Defined.

(** Confidence false on the first pass: retry. *)
Lemma should_retry_boolean_confidence_witness :
  let state :=
    {| query := "What is model risk?"; query_type := "EXPLAIN";
       target_regulations := []; retrieved_docs := []; answer := "a1";
       verification := Some (JObj {[ "confidence" := JBool false ]});
       retry_count := Some 1%Z |} in
  default (JObj ∅) (verification state) =
    JObj {[ "confidence" := JBool false ]} /\
  ({[ "confidence" := JBool false ]} : gmap string json) !! "confidence" =
    Some (JBool false) /\
  should_retry state = Ok "retry".
Proof.
  cbv zeta.
  assert (Hc : ({[ "confidence" := JBool false ]} : gmap string json)
                 !! "confidence" = Some (JBool false))
    by (vm_compute; reflexivity).
  split; [reflexivity|]. split; [exact Hc|].
  destruct (should_retry_boolean_confidence
              {| query := "What is model risk?"; query_type := "EXPLAIN";
                 target_regulations := []; retrieved_docs := [];
                 answer := "a1";
                 verification := Some (JObj {[ "confidence" := JBool false ]});
                 retry_count := Some 1%Z |}
              {[ "confidence" := JBool false ]} false eq_refl Hc) as [Hs _].
  exact Hs.
Defined.

(** The examples of the docstring of [detect_regulation_name]; the first
    key in map order wins. *)
Example detect_regulation_name_examples :
  detect_regulation_name "SR1107a1.pdf" = "SR 11-7" /\
  detect_regulation_name "NIST.AI.100-1.pdf" = "NIST AI RMF" /\
  detect_regulation_name "nist_vs_sr1107.pdf" = "SR 11-7" /\
  detect_regulation_name "handbook.pdf" = "Unknown".
Proof. repeat split; vm_compute; reflexivity. Qed.

(** Matching is on substrings: a keyword inside a longer word counts. *)
Example detect_inside_a_word :
  detect_regulations "public administration" = ["NIST AI RMF"].
Proof. vm_compute. reflexivity. Qed.

Example allowed_origins_examples :
  allowed_origins (Some "https://a.example , https://b.example") =
    ["https://a.example"; "https://b.example"] /\
  allowed_origins (Some "https://a.example,") = ["https://a.example"; EmptyString] /\
  allowed_origins (Some " ") = [EmptyString].
Proof. repeat split; vm_compute; reflexivity. Qed.
